(** * main.py: a video-game table over sqlite3

    A shallow embedding of [main.py]: the [VideoGameModel] dataclass with its
    guarded [id] property, the [database_context] cursor manager, and the five
    data-access functions, each of which runs one SQL statement on a shared
    [sqlite3.Connection].

    Python objects live in an explicit state: the connection (committed table
    and open transaction), the cursors created so far, and a heap of
    [VideoGameModel] instances addressed by reference, so that the write-back
    of [add_video_game] into the caller's object is visible.  Functions are
    computations in a state monad whose result is a returned value or a raised
    exception; the state survives an exception, as it does in Python. *)

From Stdlib Require Import ZArith String Ascii List Bool Lia.
From Stdlib Require Import Floats.SpecFloat.
From Stdlib Require Import DecimalString DecimalZ.
From stdpp Require Import base option list.

Import ListNotations.
Local Open Scope Z_scope.

(** ** Python values *)

(** The scalar values that reach the model and the engine.  A [float] is an
    IEEE-754 binary64 datum. *)
Inductive value : Type :=
| VNone
| VBool (b : bool)
| VInt (z : Z)
| VFloat (f : spec_float)
| VStr (s : string).

(** The exception classes this program can raise ([IntegrityError],
    [OperationalError] and [ProgrammingError] are sqlite3's), and
    [LookupError], the builtin class of the errors for a key or index that is
    not found, which nothing here raises. *)
Inductive exn : Type :=
| TypeError
| ValueError
| OverflowError
| IntegrityError
| OperationalError
| ProgrammingError
| LookupError.

(** What a call does: it returns, it raises, or it leaves the fragment of
    Python and SQLite that this development describes ([OutOfModel]: a
    dangling reference, a text/real conversion whose digits depend on the
    engine version). *)
Inductive outcome (A : Type) : Type :=
| Return (a : A)
| Raise (e : exn)
| OutOfModel.

Arguments Return {A} a.
Arguments Raise {A} e.
Arguments OutOfModel {A}.

(** [isinstance(value, int)]: [bool] is a subclass of [int]. *)
Definition isinstance_int (v : value) : bool :=
  match v with
  | VInt _ | VBool _ => true
  | _ => false
  end.

(** ** The entity *)

(** [@dataclass(slots=True) class VideoGameModel]: three slots, none of them
    checked by the generated [__init__]. *)
Record VideoGameModel : Type := mkVideoGameModel {
  name : value;
  rating : value;
  _id : value
}.

(** The generated [__init__(self, name, rating, _id=None)] applied to
    positional arguments. *)
Definition VideoGameModel_init (args : list value) : outcome VideoGameModel :=
  match args with
  | [n; r] => Return (mkVideoGameModel n r VNone)
  | [n; r; i] => Return (mkVideoGameModel n r i)
  | _ => Raise TypeError
  end.

(** The [id] property: getter and setter. *)
Definition id_getter (self : VideoGameModel) : value := _id self.

Definition id_setter (self : VideoGameModel) (v : value) : outcome VideoGameModel :=
  if negb (isinstance_int v) then Raise ValueError
  else Return (mkVideoGameModel (name self) (rating self) v).

(** ** The SQLite engine *)

(** Storage classes (BLOB is never bound by the values above). *)
Inductive sqlvalue : Type :=
| SNull
| SInteger (z : Z)
| SReal (f : spec_float)
| SText (s : string).

Definition min_int64 : Z := - 2 ^ 63.
Definition max_int64 : Z := 2 ^ 63 - 1.

Definition is_nan (f : spec_float) : bool :=
  match f with
  | S754_nan => true
  | _ => false
  end.

(** How the sqlite3 module binds a Python value to a [?] placeholder. *)
Definition adapt (v : value) : outcome sqlvalue :=
  match v with
  | VNone => Return SNull
  | VBool b => Return (SInteger (if b then 1 else 0))
  | VInt z =>
      if (min_int64 <=? z) && (z <=? max_int64) then Return (SInteger z)
      else Raise OverflowError
  | VFloat f => if is_nan f then Return SNull else Return (SReal f)
  | VStr s => Return (SText s)
  end.

(** How a fetched column comes back to Python. *)
Definition to_python (v : sqlvalue) : value :=
  match v with
  | SNull => VNone
  | SInteger z => VInt z
  | SReal f => VFloat f
  | SText s => VStr s
  end.

(** The C conversion of a 64-bit integer to a double (round to nearest even). *)
Definition float_of_Z (z : Z) : spec_float := binary_normalize 53 1024 z 0 false.

Definition text_of_Z (z : Z) : string := NilZero.string_of_int (Z.to_int z).

Definition is_digit (a : ascii) : bool :=
  let n := nat_of_ascii a in (48 <=? n)%nat && (n <=? 57)%nat.

Fixpoint all_digits (s : string) : bool :=
  match s with
  | EmptyString => true
  | String a s' => is_digit a && all_digits s'
  end.

Fixpoint has_digit (s : string) : bool :=
  match s with
  | EmptyString => false
  | String a s' => is_digit a || has_digit s'
  end.

Fixpoint digits_value (acc : Z) (s : string) : Z :=
  match s with
  | EmptyString => acc
  | String a s' => digits_value (10 * acc + (Z.of_nat (nat_of_ascii a) - 48)) s'
  end.

(** TEXT affinity of column [name]: [None] stands for NULL. *)
Definition text_affinity (v : sqlvalue) : outcome (option string) :=
  match v with
  | SNull => Return None
  | SText s => Return (Some s)
  | SInteger z => Return (Some (text_of_Z z))
  | SReal _ => OutOfModel
  end.

(** What a REAL column gives back for a real it was given: a real without
    fractional part is kept as an integer, so a negative zero comes back as
    0.0; every other real comes back bit for bit. *)
Definition stored_real (f : spec_float) : spec_float :=
  match f with
  | S754_zero _ => S754_zero false
  | _ => f
  end.

(** REAL affinity of column [rating]: integers become reals; text that is a
    well-formed number becomes a real, other text is stored as it is.  A run of
    at most fifteen digits converts exactly; text without any digit is not a
    number; the other texts are left out. *)
Definition real_affinity (v : sqlvalue) : outcome sqlvalue :=
  match v with
  | SNull => Return SNull
  | SReal f => Return (SReal (stored_real f))
  | SInteger z => Return (SReal (float_of_Z z))
  | SText s =>
      if negb (has_digit s) then Return (SText s)
      else if all_digits s && (String.length s <=? 15)%nat
           then Return (SReal (float_of_Z (digits_value 0 s)))
           else OutOfModel
  end.

(** One row of [videogames(id, name, rating)].  [name] has TEXT affinity and
    is NOT NULL, so a stored name is a text. *)
Record row : Type := mkRow {
  row_id : Z;
  row_name : string;
  row_rating : sqlvalue
}.

(** The table with its AUTOINCREMENT counter (the [sqlite_sequence] entry). *)
Record Table : Type := mkTable {
  rows : list row;
  seq : Z
}.

(** A connection: the committed database ([None]: no table [videogames]),
    while a transaction is open its working copy, and the rowid of the last
    accepted INSERT ([sqlite3_last_insert_rowid], 0 before the first, kept
    across a rollback). *)
Record Connection : Type := mkConnection {
  committed : option Table;
  transaction : option (option Table);
  last_insert_rowid : Z
}.

Definition in_transaction (db : Connection) : bool :=
  match transaction db with
  | Some _ => true
  | None => false
  end.

(** What statements on this connection see. *)
Definition visible (db : Connection) : option Table :=
  match transaction db with
  | Some working => working
  | None => committed db
  end.

(** The module issues BEGIN before INSERT and DELETE when none is open
    (legacy transaction control, the default of [sqlite3.connect]). *)
Definition begin (db : Connection) : Connection :=
  match transaction db with
  | Some _ => db
  | None => mkConnection (committed db) (Some (committed db)) (last_insert_rowid db)
  end.

(** A write lands in the open transaction, or is committed at once in
    autocommit mode. *)
Definition write (t : option Table) (db : Connection) : Connection :=
  match transaction db with
  | Some _ => mkConnection (committed db) (Some t) (last_insert_rowid db)
  | None => mkConnection t None (last_insert_rowid db)
  end.

Definition rollback (db : Connection) : Connection :=
  mkConnection (committed db) None (last_insert_rowid db).

(** An accepted INSERT records its rowid on the connection. *)
Definition record_rowid (k : Z) (db : Connection) : Connection :=
  mkConnection (committed db) (transaction db) k.

Definition has_name (s : string) (r : row) : bool := String.eqb (row_name r) s.
Definition has_id (z : Z) (r : row) : bool := row_id r =? z.

(** The largest rowid the table has ever held. *)
Definition largest_rowid (t : Table) : Z :=
  fold_right Z.max (seq t) (map row_id (rows t)).

Definition select_tuple (r : row) : list value :=
  [VStr (row_name r); to_python (row_rating r); VInt (row_id r)].

(** [CREATE TABLE IF NOT EXISTS videogames(...)]. *)
Definition sql_create_table (db : Connection) : outcome unit * Connection :=
  match visible db with
  | Some _ => (Return tt, db)
  | None => (Return tt, write (Some (mkTable [] 0)) db)
  end.

(** [INSERT INTO videogames(name, rating) VALUES(?, ?)]; returns the rowid.
    The parameters are bound first; the engine then allocates the
    AUTOINCREMENT rowid, and fails with SQLITE_FULL, which rolls the
    transaction back, when the largest rowid was already used; only then are
    the constraints checked.  NOT NULL fails with the default resolution (the
    statement alone is undone), [UNIQUE(name) ON CONFLICT ROLLBACK] rolls the
    transaction back. *)
Definition sql_insert (n r : value) (db : Connection) : outcome Z * Connection :=
  match visible db with
  | None => (Raise OperationalError, db)
  | Some t =>
      let db1 := begin db in
      match adapt n with
      | Raise e => (Raise e, db1)
      | OutOfModel => (OutOfModel, db1)
      | Return sn =>
      match adapt r with
      | Raise e => (Raise e, db1)
      | OutOfModel => (OutOfModel, db1)
      | Return sr =>
      if largest_rowid t =? max_int64 then (Raise OperationalError, rollback db1)
      else
      match text_affinity sn, real_affinity sr with
      | Return None, Return _ => (Raise IntegrityError, db1)
      | Return (Some _), Return SNull => (Raise IntegrityError, db1)
      | Return (Some s), Return cell =>
          if existsb (has_name s) (rows t) then (Raise IntegrityError, rollback db1)
          else
            let k := largest_rowid t + 1 in
            (Return k,
             record_rowid k (write (Some (mkTable (rows t ++ [mkRow k s cell]) k)) db1))
      | _, _ => (OutOfModel, db1)
      end
      end
      end
  end.

(** [SELECT name, rating, id FROM videogames]. *)
Definition sql_select_all (db : Connection) : outcome (list (list value)) * Connection :=
  match visible db with
  | None => (Raise OperationalError, db)
  | Some t => (Return (map select_tuple (rows t)), db)
  end.

(** [SELECT name, rating, id FROM videogames WHERE name = ?]: the operand takes
    the affinity of the column. *)
Definition sql_select_by_name (n : value) (db : Connection)
  : outcome (list (list value)) * Connection :=
  match visible db with
  | None => (Raise OperationalError, db)
  | Some t =>
      match adapt n with
      | Raise e => (Raise e, db)
      | OutOfModel => (OutOfModel, db)
      | Return sn =>
          match text_affinity sn with
          | Return None => (Return [], db)
          | Return (Some s) => (Return (map select_tuple (List.filter (has_name s) (rows t))), db)
          | _ => (OutOfModel, db)
          end
      end
  end.

(** [DELETE FROM videogames WHERE id = ?]. *)
Definition sql_delete_by_id (i : value) (db : Connection) : outcome unit * Connection :=
  match visible db with
  | None => (Raise OperationalError, db)
  | Some t =>
      let db1 := begin db in
      match adapt i with
      | Raise e => (Raise e, db1)
      | OutOfModel => (OutOfModel, db1)
      | Return SNull => (Return tt, db1)
      | Return (SInteger z) =>
          (Return tt,
           write (Some (mkTable (List.filter (fun r => negb (has_id z r)) (rows t)) (seq t))) db1)
      | Return _ => (OutOfModel, db1)
      end
  end.

(** ** Python state and computations *)

(** A [sqlite3.Cursor]. *)
Record Cursor : Type := mkCursor {
  closed : bool;
  lastrowid : value;
  fetched : list (list value)
}.

(** The objects the program works on: the connection [db], the cursors made
    from it (in creation order) and the [VideoGameModel] instances. *)
Record Py : Type := mkPy {
  db : Connection;
  cursors : list Cursor;
  heap : list VideoGameModel
}.

Definition M (A : Type) : Type := Py -> outcome A * Py.

Definition ret {A} (a : A) : M A := fun st => (Return a, st).

Definition raise {A} (e : exn) : M A := fun st => (Raise e, st).

(** Sequencing: an exception (or leaving the model) skips what follows and
    keeps the state reached so far. *)
Definition bind {A B} (m : M A) (k : A -> M B) : M B :=
  fun st =>
    match m st with
    | (Return a, st') => k a st'
    | (Raise e, st') => (Raise e, st')
    | (OutOfModel, st') => (OutOfModel, st')
    end.

Notation "x <- m ;; k" := (bind m (fun x => k))
  (at level 100, m at next level, right associativity).
Notation "m ;;; k" := (bind m (fun _ => k))
  (at level 100, right associativity).

(** Statements as the program issues them: the SQL text with its bound
    parameters. *)
Inductive statement : Type :=
| CreateTable
| Insert (n r : value)
| SelectAll
| SelectByName (n : value)
| DeleteById (i : value).

(** [db.cursor()]. *)
Definition db_cursor : M nat :=
  fun st =>
    (Return (length (cursors st)),
     mkPy (db st) (cursors st ++ [mkCursor false VNone []]) (heap st)).

(** [cursor.close()]. *)
Definition cursor_close (c : nat) : M unit :=
  fun st =>
    match cursors st !! c with
    | None => (OutOfModel, st)
    | Some cur =>
        (Return tt,
         mkPy (db st) (<[c := mkCursor true (lastrowid cur) []]> (cursors st)) (heap st))
    end.

(** [cursor.execute(sql, parameters)].  After a statement that succeeded the
    module sets the cursor's [lastrowid] from the connection, whatever the
    statement; a statement that raised leaves the cursor as it was. *)
Definition cursor_execute (c : nat) (sql : statement) : M unit :=
  fun st =>
    match cursors st !! c with
    | None => (OutOfModel, st)
    | Some cur =>
        if closed cur then (Raise ProgrammingError, st)
        else
          let finish {R} (res : outcome R * Connection) (result : R -> list (list value)) :=
            match res with
            | (Return x, db') =>
                (Return tt,
                 mkPy db'
                   (<[c := mkCursor false (VInt (last_insert_rowid db')) (result x)]>
                      (cursors st))
                   (heap st))
            | (Raise e, db') => (Raise e, mkPy db' (cursors st) (heap st))
            | (OutOfModel, db') => (OutOfModel, mkPy db' (cursors st) (heap st))
            end in
          match sql with
          | CreateTable => finish (sql_create_table (db st)) (fun _ => [])
          | Insert n r => finish (sql_insert n r (db st)) (fun _ => [])
          | SelectAll => finish (sql_select_all (db st)) (fun l => l)
          | SelectByName n => finish (sql_select_by_name n (db st)) (fun l => l)
          | DeleteById i => finish (sql_delete_by_id i (db st)) (fun _ => [])
          end
    end.

(** [cursor.lastrowid]. *)
Definition cursor_lastrowid (c : nat) : M value :=
  fun st =>
    match cursors st !! c with
    | None => (OutOfModel, st)
    | Some cur => (Return (lastrowid cur), st)
    end.

(** [cursor.fetchall()]. *)
Definition cursor_fetchall (c : nat) : M (list (list value)) :=
  fun st =>
    match cursors st !! c with
    | None => (OutOfModel, st)
    | Some cur =>
        if closed cur then (Raise ProgrammingError, st)
        else (Return (fetched cur),
              mkPy (db st) (<[c := mkCursor false (lastrowid cur) []]> (cursors st)) (heap st))
    end.

(** [cursor.fetchone()]: [None] when no row is left. *)
Definition cursor_fetchone (c : nat) : M (option (list value)) :=
  fun st =>
    match cursors st !! c with
    | None => (OutOfModel, st)
    | Some cur =>
        if closed cur then (Raise ProgrammingError, st)
        else
          match fetched cur with
          | [] => (Return None, st)
          | r :: rest =>
              (Return (Some r),
               mkPy (db st) (<[c := mkCursor false (lastrowid cur) rest]> (cursors st)) (heap st))
          end
    end.

(** A call of [VideoGameModel] on unpacked arguments: a new object on the heap. *)
Definition VideoGameModel_new (args : list value) : M nat :=
  fun st =>
    match VideoGameModel_init args with
    | Return g => (Return (length (heap st)), mkPy (db st) (cursors st) (heap st ++ [g]))
    | Raise e => (Raise e, st)
    | OutOfModel => (OutOfModel, st)
    end.

(** [*row] in a call: unpacking [None] is a [TypeError]. *)
Definition star (r : option (list value)) : M (list value) :=
  match r with
  | Some args => ret args
  | None => raise TypeError
  end.

(** Reading an attribute of the object behind a reference. *)
Definition getattr (f : VideoGameModel -> value) (video_game : nat) : M value :=
  fun st =>
    match heap st !! video_game with
    | None => (OutOfModel, st)
    | Some g => (Return (f g), st)
    end.

(** [video_game.id = v]: the setter, updating the object in place. *)
Definition setattr_id (video_game : nat) (v : value) : M unit :=
  fun st =>
    match heap st !! video_game with
    | None => (OutOfModel, st)
    | Some g =>
        match id_setter g v with
        | Return g' => (Return tt, mkPy (db st) (cursors st) (<[video_game := g']> (heap st)))
        | Raise e => (Raise e, st)
        | OutOfModel => (OutOfModel, st)
        end
    end.

(** ** The program *)

(** [@contextlib.contextmanager def database_context(db)]: the body of the
    [with] block runs at the [yield]; [cursor.close()] is the statement after
    it, reached only when the body does not raise. *)
Definition database_context {A} (body : nat -> M A) : M A :=
  cursor <- db_cursor ;;
  result <- body cursor ;;
  cursor_close cursor ;;;
  ret result.

Definition create_video_game_table : M unit :=
  database_context (fun cursor => cursor_execute cursor CreateTable).

Definition add_video_game (video_game : nat) : M unit :=
  database_context (fun cursor =>
    n <- getattr name video_game ;;
    r <- getattr rating video_game ;;
    cursor_execute cursor (Insert n r) ;;;
    k <- cursor_lastrowid cursor ;;
    setattr_id video_game k).

(** The [for row in cursor.fetchall()] loop appending to [video_games]. *)
Fixpoint append_video_games (fetched_rows : list (list value)) (video_games : list nat)
  : M (list nat) :=
  match fetched_rows with
  | [] => ret video_games
  | r :: rest =>
      g <- VideoGameModel_new r ;;
      append_video_games rest (video_games ++ [g])
  end.

Definition get_all_video_games : M (list nat) :=
  database_context (fun cursor =>
    cursor_execute cursor SelectAll ;;;
    fetched_rows <- cursor_fetchall cursor ;;
    append_video_games fetched_rows []).

Definition get_video_game_by_name (n : value) : M nat :=
  database_context (fun cursor =>
    cursor_execute cursor (SelectByName n) ;;;
    r <- cursor_fetchone cursor ;;
    args <- star r ;;
    VideoGameModel_new args).

Definition delete_video_game_by_id (i : value) : M unit :=
  database_context (fun cursor => cursor_execute cursor (DeleteById i)).

(** A fresh [sqlite3.connect(":memory:")] and no objects yet. *)
Definition fresh : Py := mkPy (mkConnection None None 0) [] [].

(** What [print] shows of an object, and of a list of objects. *)
Definition show (video_game : nat) : M VideoGameModel :=
  fun st =>
    match heap st !! video_game with
    | None => (OutOfModel, st)
    | Some g => (Return g, st)
    end.

Fixpoint show_all (video_games : list nat) : M (list VideoGameModel) :=
  match video_games with
  | [] => ret []
  | r :: rest =>
      g <- show r ;;
      gs <- show_all rest ;;
      ret (g :: gs)
  end.

(** [main()], returning the five things it prints. *)
Definition main : M (list (list VideoGameModel)) :=
  create_video_game_table ;;;
  satisfactory <- VideoGameModel_new [VStr "Satisfactory"; VStr "90"] ;;
  p1 <- show satisfactory ;;
  add_video_game satisfactory ;;;
  p2 <- show satisfactory ;;
  games <- get_all_video_games ;;
  p3 <- show_all games ;;
  satisfactory <- get_video_game_by_name (VStr "Satisfactory") ;;
  p4 <- show satisfactory ;;
  i <- getattr id_getter satisfactory ;;
  delete_video_game_by_id i ;;;
  games <- get_all_video_games ;;
  p5 <- show_all games ;;
  ret [[p1]; [p2]; p3; [p4]; p5].

(** * Vocabulary of the properties *)

(** The cursor a call of [database_context] makes, open and closed. *)
Definition opened : Cursor := mkCursor false VNone [].

(** The cursor of a call that ran its statement on connection [d]: still
    open with rows to fetch, or closed. *)
Definition executed (d : Connection) (rest : list (list value)) : Cursor :=
  mkCursor false (VInt (last_insert_rowid d)) rest.

Definition done_with (d : Connection) : Cursor :=
  mkCursor true (VInt (last_insert_rowid d)) [].

(** The state a call leaves behind: connection [d], the cursor it made in
    condition [cur], the objects untouched. *)
Definition with_cursor (cur : Cursor) (d : Connection) (st : Py) : Py :=
  mkPy d (cursors st ++ [cur]) (heap st).

(** No text occurs twice in the list. *)
Fixpoint distinct (l : list string) : bool :=
  match l with
  | [] => true
  | x :: l' => negb (existsb (String.eqb x) l') && distinct l'
  end.

(** No two rows of the table share a name. *)
Definition names_unique (t : option Table) : bool :=
  match t with
  | Some t => distinct (map row_name (rows t))
  | None => true
  end.

(** The uniqueness invariant of a connection: it holds of what is committed
    and of what the open transaction has written. *)
Definition consistent (d : Connection) : bool :=
  names_unique (committed d) && names_unique (visible d).

(** The rows a lookup by name matches, and their number. *)
Definition matching (s : string) (d : Connection) : list row :=
  match visible d with
  | Some t => List.filter (has_name s) (rows t)
  | None => []
  end.


(** The object a fetched row is turned into. *)
Definition of_row (r : row) : VideoGameModel :=
  mkVideoGameModel (VStr (row_name r)) (to_python (row_rating r)) (VInt (row_id r)).

(** The row an accepted INSERT appends. *)
Definition inserted (t : Table) (s : string) (cell : sqlvalue) : Table :=
  let k := largest_rowid t + 1 in
  mkTable (rows t ++ [mkRow k s cell]) k.

(** What the [rating] column makes of a Python value: the value is bound,
    then takes the affinity of the column. *)
Definition rating_cell (r : value) : outcome sqlvalue :=
  match adapt r with
  | Return sr => real_affinity sr
  | Raise e => Raise e
  | OutOfModel => OutOfModel
  end.

(** The ratings the column accepts: those it stores as something other
    than NULL (a real other than NaN, an integer within 64 bits, a bool, a
    text without digit or of one to fifteen digits). *)
Definition accepts_rating (r : value) : bool :=
  match rating_cell r with
  | Return SNull => false
  | Return _ => true
  | _ => false
  end.

Definition stored_cell (r : value) : sqlvalue :=
  match rating_cell r with
  | Return cell => cell
  | _ => SNull
  end.

(** The connection after an accepted INSERT into table [t]. *)
Definition accepted (t : Table) (s : string) (cell : sqlvalue) (d : Connection)
  : Connection :=
  record_rowid (largest_rowid t + 1) (write (Some (inserted t s cell)) (begin d)).

(** Sample states: a connection on which the table was created and one game
    was added, and a second object of the same name. *)
Definition one_game : Py :=
  snd ((create_video_game_table ;;;
        first <- VideoGameModel_new [VStr "Satisfactory"; VFloat (float_of_Z 90)] ;;
        add_video_game first ;;;
        VideoGameModel_new [VStr "Satisfactory"; VFloat (float_of_Z 75)]) fresh).


(** Two games added, and a third object named like the second. *)
Definition two_games : Py :=
  snd ((create_video_game_table ;;;
        portal <- VideoGameModel_new [VStr "Portal"; VFloat (float_of_Z 95)] ;;
        add_video_game portal ;;;
        celeste <- VideoGameModel_new [VStr "Celeste"; VFloat (float_of_Z 92)] ;;
        add_video_game celeste ;;;
        VideoGameModel_new [VStr "Celeste"; VFloat (float_of_Z 60)]) fresh).

(** A connection with the table created and one object not yet added, whose
    identifier was set by hand beforehand. *)
Definition unsaved_game : Py :=
  snd ((create_video_game_table ;;;
        VideoGameModel_new [VStr "Hades"; VFloat (float_of_Z 93); VInt 41]) fresh).

(** The table created and nothing in it. *)
Definition empty_store : Py := snd (create_video_game_table fresh).

(** The states reached from a fresh connection by calls of the constructor
    and of the five functions, whether they return or raise. *)
Inductive reachable : Py -> Prop :=
| reach_fresh : reachable fresh
| reach_new st args :
    reachable st -> reachable (snd (VideoGameModel_new args st))
| reach_create st :
    reachable st -> reachable (snd (create_video_game_table st))
| reach_add st video_game :
    reachable st -> reachable (snd (add_video_game video_game st))
| reach_all st :
    reachable st -> reachable (snd (get_all_video_games st))
| reach_by_name st n :
    reachable st -> reachable (snd (get_video_game_by_name n st))
| reach_delete st i :
    reachable st -> reachable (snd (delete_video_game_by_id i st)).

(** Whether a call returned. *)
Definition returned {A} (o : outcome A) : bool :=
  match o with
  | Return _ => true
  | _ => false
  end.

(** The references of [n] objects allocated in a row from [first]. *)
Definition fresh_refs (first n : nat) : list nat := List.seq first n.

(** Strictly increasing from above [lo]. *)
Fixpoint ascending (lo : Z) (l : list Z) : bool :=
  match l with
  | [] => true
  | x :: l' => (lo <? x) && ascending x l'
  end.

(** Rowids of a table: positive, strictly increasing in table order, and none
    above the AUTOINCREMENT counter, which stays within 64 bits. *)
Definition numbered (t : option Table) : bool :=
  match t with
  | Some t =>
      ascending 0 (map row_id (rows t)) &&
      forallb (fun k => k <=? seq t) (map row_id (rows t)) &&
      ((0 <=? seq t) && (seq t <=? max_int64))
  | None => true
  end.

Definition well_numbered (d : Connection) : bool :=
  numbered (committed d) && numbered (visible d).

(** A call on [st] made one cursor, after those that were there, and left it
    closed exactly when it returned. *)
Definition one_cursor {A} (st : Py) (r : outcome A * Py) : Prop :=
  exists cur, cursors (snd r) = cursors st ++ [cur] /\ closed cur = returned (fst r).

(** A state reached by the calls of a session: two games added, the first
    deleted again. *)
Definition after_delete : Py :=
  snd (delete_video_game_by_id (VInt 1)
    (snd (add_video_game 1
      (snd (VideoGameModel_new [VStr "Celeste"; VFloat (float_of_Z 92)]
        (snd (add_video_game 0
          (snd (VideoGameModel_new [VStr "Portal"; VFloat (float_of_Z 95)]
            (snd (create_video_game_table fresh))))))))))).

(** The same session without the delete. *)
Definition before_delete : Py :=
  snd (add_video_game 1
    (snd (VideoGameModel_new [VStr "Celeste"; VFloat (float_of_Z 92)]
      (snd (add_video_game 0
        (snd (VideoGameModel_new [VStr "Portal"; VFloat (float_of_Z 95)]
          (snd (create_video_game_table fresh))))))))).

(** The table [main] works on once it has created it where it was missing. *)
Definition table_or_empty (d : Connection) : Table :=
  match visible d with
  | Some t => t
  | None => mkTable [] 0
  end.

(** Nothing but the empty table has been committed, and a transaction is
    open only over an existing table. *)
Definition only_table_committed (d : Connection) : bool :=
  match committed d, transaction d with
  | None, None => true
  | Some (mkTable [] 0), (None | Some (Some _)) => true
  | _, _ => false
  end.

(** * Properties *)

(** ** Running the functions *)

Section Lists.
Context {A : Type}.

Lemma lookup_new (l : list A) (x : A) : (l ++ [x]) !! length l = Some x.
Proof. by apply list_lookup_middle. Qed.

Lemma insert_new (l : list A) (x y : A) : <[length l := y]> (l ++ [x]) = l ++ [y].
Proof.
  replace (length l) with (length l + 0)%nat by lia.
  by rewrite insert_app_r.
Qed.
End Lists.

(** Unfolds the cursor and heap primitives and replays them on the state. *)
Ltac run :=
  unfold database_context, bind, db_cursor, cursor_execute, cursor_close,
    cursor_lastrowid, cursor_fetchone, cursor_fetchall, getattr, setattr_id,
    star, ret, raise, VideoGameModel_new, with_cursor, opened, executed, done_with;
  repeat (progress (cbn [db cursors heap closed lastrowid fetched];
                    rewrite ?lookup_new, ?insert_new;
                    try match goal with H : _ !! _ = _ |- _ => rewrite H end)).

Lemma create_video_game_table_run (st : Py) :
  create_video_game_table st =
  (Return tt,
   with_cursor (done_with (snd (sql_create_table (db st))))
     (snd (sql_create_table (db st))) st).
Proof.
  unfold create_video_game_table. run.
  unfold sql_create_table. destruct (visible (db st)); run; reflexivity.
Qed.

Lemma delete_video_game_by_id_run (i : value) (st : Py) :
  delete_video_game_by_id i st =
  match sql_delete_by_id i (db st) with
  | (Return _, d) => (Return tt, with_cursor (done_with d) d st)
  | (Raise e, d) => (Raise e, with_cursor opened d st)
  | (OutOfModel, d) => (OutOfModel, with_cursor opened d st)
  end.
Proof.
  unfold delete_video_game_by_id. run.
  destruct (sql_delete_by_id i (db st)) as [[u|e|] d]; run; reflexivity.
Qed.

(** The rowid an accepted INSERT returns is the one the connection records. *)
Lemma sql_insert_rowid (n r : value) (d d' : Connection) (k : Z) :
  sql_insert n r d = (Return k, d') -> last_insert_rowid d' = k.
Proof.
  unfold sql_insert.
  destruct (visible d) as [t|]; [|discriminate].
  destruct (adapt n) as [sn|?|]; try discriminate.
  destruct (adapt r) as [sr|?|]; try discriminate.
  destruct (largest_rowid t =? max_int64); [discriminate|].
  destruct (text_affinity sn) as [[s|]|?|], (real_affinity sr) as [[]|?|];
    try discriminate;
    (destruct (existsb (has_name s) (rows t)); [discriminate|]);
    intros H; by inversion H.
Qed.

Lemma add_video_game_run (video_game : nat) (st : Py) :
  add_video_game video_game st =
  match heap st !! video_game with
  | None => (OutOfModel, with_cursor opened (db st) st)
  | Some g =>
      match sql_insert (name g) (rating g) (db st) with
      | (Return k, d) =>
          (Return tt,
           mkPy d (cursors st ++ [mkCursor true (VInt k) []])
             (<[video_game := mkVideoGameModel (name g) (rating g) (VInt k)]> (heap st)))
      | (Raise e, d) => (Raise e, with_cursor opened d st)
      | (OutOfModel, d) => (OutOfModel, with_cursor opened d st)
      end
  end.
Proof.
  unfold add_video_game. run.
  destruct (heap st !! video_game) as [g|] eqn:Hg; run; [|reflexivity].
  destruct (sql_insert (name g) (rating g) (db st)) as [[k|e|] d] eqn:Hi; run;
    try reflexivity.
  rewrite (sql_insert_rowid _ _ _ _ _ Hi).
  unfold id_setter. cbn [isinstance_int negb]. run. reflexivity.
Qed.

Lemma get_video_game_by_name_run (n : value) (st : Py) :
  get_video_game_by_name n st =
  match sql_select_by_name n (db st) with
  | (Return [], d) => (Raise TypeError, with_cursor (executed d []) d st)
  | (Return (args :: rest), d) =>
      match VideoGameModel_init args with
      | Return g =>
          (Return (length (heap st)),
           mkPy d (cursors st ++ [done_with d]) (heap st ++ [g]))
      | Raise e => (Raise e, with_cursor (executed d rest) d st)
      | OutOfModel => (OutOfModel, with_cursor (executed d rest) d st)
      end
  | (Raise e, d) => (Raise e, with_cursor opened d st)
  | (OutOfModel, d) => (OutOfModel, with_cursor opened d st)
  end.
Proof.
  unfold get_video_game_by_name. run.
  destruct (sql_select_by_name n (db st)) as [[l|e|] d]; run; try reflexivity.
  destruct l as [|args rest]; run; [reflexivity|].
  destruct (VideoGameModel_init args) as [g|e|]; run; reflexivity.
Qed.

(** [database_context] closes its cursor whenever the block returns. *)
Lemma database_context_return_closed {A} (body : nat -> M A) (st st' : Py) (a : A) :
  database_context body st = (Return a, st') ->
  exists cur, cursors st' !! length (cursors st) = Some cur /\ closed cur = true.
Proof.
  unfold database_context, bind, db_cursor, cursor_close, ret.
  destruct (body _ _) as [[x|e|] s1]; try discriminate.
  destruct (cursors s1 !! length (cursors st)) as [cur|] eqn:Hc; try discriminate.
  intros H. injection H as _ <-. cbn [cursors].
  exists (mkCursor true (lastrowid cur) []). split; [|reflexivity].
  apply list_lookup_insert_eq. by apply lookup_lt_Some in Hc.
Qed.

(** ** Transactions *)

Lemma visible_begin (d : Connection) : visible (begin d) = visible d.
Proof. by destruct d as [c [w|] l]. Qed.

Lemma committed_begin (d : Connection) : committed (begin d) = committed d.
Proof. by destruct d as [c [w|] l]. Qed.

Lemma visible_write_begin (t : option Table) (d : Connection) :
  visible (write t (begin d)) = t.
Proof. by destruct d as [c [w|] l]. Qed.

Lemma committed_write_begin (t : option Table) (d : Connection) :
  committed (write t (begin d)) = committed d.
Proof. by destruct d as [c [w|] l]. Qed.

Lemma rollback_begin (d : Connection) : rollback (begin d) = rollback d.
Proof. by destruct d as [c [w|] l]. Qed.

Lemma visible_record_rowid (k : Z) (d : Connection) :
  visible (record_rowid k d) = visible d.
Proof. reflexivity. Qed.

Lemma committed_record_rowid (k : Z) (d : Connection) :
  committed (record_rowid k d) = committed d.
Proof. reflexivity. Qed.

Lemma visible_rollback (d : Connection) : visible (rollback d) = committed d.
Proof. reflexivity. Qed.


Lemma visible_autocommit (d : Connection) : in_transaction d = false -> visible d = committed d.
Proof. by destruct d as [c [w|] l]. Qed.

(** ** Rows, names and rowids *)

Lemma existsb_names (s : string) (l : list row) :
  existsb (String.eqb s) (map row_name l) = existsb (has_name s) l.
Proof.
  induction l as [|r l IH]; [reflexivity|].
  cbn. rewrite IH. unfold has_name. by rewrite String.eqb_sym.
Qed.

Lemma filter_none {A} (p : A -> bool) (l : list A) :
  existsb p l = false -> List.filter p l = [].
Proof.
  induction l as [|x l IH]; [reflexivity|].
  cbn. destruct (p x); [discriminate|]. exact IH.
Qed.

Lemma filter_all {A} (p : A -> bool) (l : list A) :
  existsb (fun x => negb (p x)) l = false -> List.filter p l = l.
Proof.
  induction l as [|x l IH]; [reflexivity|].
  cbn. destruct (p x); cbn; [|discriminate]. intros H. by rewrite IH.
Qed.

Lemma distinct_snoc (l : list string) (s : string) :
  distinct l = true -> existsb (String.eqb s) l = false -> distinct (l ++ [s]) = true.
Proof.
  induction l as [|x l IH]; [reflexivity|].
  cbn. intros Hd Hs.
  apply andb_true_iff in Hd as [Hx Hd].
  apply orb_false_iff in Hs as [Hsx Hs].
  rewrite IH by assumption. rewrite andb_true_r.
  rewrite existsb_app. cbn. rewrite orb_false_r.
  apply negb_true_iff in Hx. rewrite Hx. cbn.
  rewrite String.eqb_sym. by rewrite Hsx.
Qed.

Lemma distinct_filter (p : row -> bool) (l : list row) :
  distinct (map row_name l) = true -> distinct (map row_name (List.filter p l)) = true.
Proof.
  induction l as [|r l IH]; [reflexivity|].
  cbn. intros Hd. apply andb_true_iff in Hd as [Hx Hd].
  destruct (p r); [|by apply IH].
  cbn. rewrite IH by assumption. rewrite andb_true_r.
  apply negb_true_iff in Hx. apply negb_true_iff.
  rewrite existsb_names in *.
  destruct (existsb (has_name (row_name r)) (List.filter p l)) eqn:E; [|reflexivity].
  apply existsb_exists in E as (y & Hy & Hn).
  apply filter_In in Hy as [Hy _].
  assert (existsb (has_name (row_name r)) l = true) as Habs
    by (apply existsb_exists; eauto).
  congruence.
Qed.



Lemma largest_rowid_bound (t : Table) (r : row) :
  In r (rows t) -> row_id r <= largest_rowid t.
Proof.
  unfold largest_rowid. induction (rows t) as [|x l IH]; [intros []|].
  cbn. intros [->|H]; [lia|]. specialize (IH H). lia.
Qed.

(** ** The INSERT statement *)

Lemma visible_accepted (t : Table) (s : string) (cell : sqlvalue) (d : Connection) :
  visible (accepted t s cell d) = Some (inserted t s cell).
Proof. unfold accepted. by rewrite visible_record_rowid, visible_write_begin. Qed.

Lemma committed_accepted (t : Table) (s : string) (cell : sqlvalue) (d : Connection) :
  committed (accepted t s cell d) = committed d.
Proof. unfold accepted. by rewrite committed_record_rowid, committed_write_begin. Qed.

(** An INSERT of a text name and a rating that the column stores as [cell]. *)
Lemma sql_insert_stored (s : string) (r : value) (sr cell : sqlvalue)
    (d : Connection) (t : Table) :
  visible d = Some t ->
  adapt r = Return sr ->
  real_affinity sr = Return cell ->
  cell <> SNull ->
  sql_insert (VStr s) r d =
  if largest_rowid t =? max_int64 then (Raise OperationalError, rollback d)
  else if existsb (has_name s) (rows t) then (Raise IntegrityError, rollback d)
  else (Return (largest_rowid t + 1), accepted t s cell d).
Proof.
  intros Ht Ha Hr Hc. unfold sql_insert. rewrite Ht, Ha. cbn [adapt text_affinity].
  rewrite Hr, rollback_begin. by destruct cell.
Qed.

(** An INSERT of a text name and a real rating that is not NaN. *)
Lemma sql_insert_typed (s : string) (f : spec_float) (d : Connection) (t : Table) :
  visible d = Some t ->
  is_nan f = false ->
  sql_insert (VStr s) (VFloat f) d =
  if largest_rowid t =? max_int64 then (Raise OperationalError, rollback d)
  else if existsb (has_name s) (rows t) then (Raise IntegrityError, rollback d)
  else (Return (largest_rowid t + 1), accepted t s (SReal (stored_real f)) d).
Proof.
  intros Ht Hf.
  apply (sql_insert_stored s (VFloat f) (SReal f)); try done.
  cbn. by rewrite Hf.
Qed.

(** Whatever the values, an INSERT that succeeds has appended one row with a
    new name under the next rowid, which was still free. *)
Lemma sql_insert_return (n r : value) (d d' : Connection) (k : Z) :
  sql_insert n r d = (Return k, d') ->
  exists t s cell,
    visible d = Some t /\
    existsb (has_name s) (rows t) = false /\
    largest_rowid t <> max_int64 /\
    k = largest_rowid t + 1 /\
    d' = accepted t s cell d.
Proof.
  unfold sql_insert.
  destruct (visible d) as [t|] eqn:Ht; [|discriminate].
  destruct (adapt n) as [sn|?|]; try discriminate.
  destruct (adapt r) as [sr|?|]; try discriminate.
  destruct (Z.eqb_spec (largest_rowid t) max_int64) as [|Hfree]; [discriminate|].
  destruct (text_affinity sn) as [[s|]|?|], (real_affinity sr) as [[]|?|];
    try discriminate;
    (destruct (existsb (has_name s) (rows t)) eqn:E; [discriminate|]);
    intros H; inversion H; subst; eexists t, s, _; by repeat split.
Qed.

(** Every exit of an INSERT leaves the connection as it was, with a
    transaction begun, rolled back, or holding the new row. *)
Lemma sql_insert_cases (n r : value) (d d' : Connection) (o : outcome Z) :
  sql_insert n r d = (o, d') ->
  d' = d \/ d' = begin d \/ d' = rollback d \/
  exists t s cell, visible d = Some t /\ existsb (has_name s) (rows t) = false /\
                   d' = accepted t s cell d.
Proof.
  destruct o as [k|e|].
  { intros H. apply sql_insert_return in H as (t & s & cell & Ht & Hs & _ & _ & ->).
    right. right. right. by exists t, s, cell. }
  all: unfold sql_insert;
    destruct (visible d) as [t|]; [|intros H; inversion H; tauto];
    destruct (adapt n) as [sn|?|]; [|intros H; inversion H; tauto..];
    destruct (adapt r) as [sr|?|]; [|intros H; inversion H; tauto..];
    (destruct (largest_rowid t =? max_int64);
     [rewrite rollback_begin; intros H; inversion H; tauto|]);
    destruct (text_affinity sn) as [[s|]|?|], (real_affinity sr) as [[]|?|];
    try (intros H; inversion H; tauto);
    (destruct (existsb (has_name s) (rows t));
     [rewrite rollback_begin; intros H; inversion H; tauto|]);
    intros H; inversion H.
Qed.

Lemma consistent_begin (d : Connection) : consistent d = true -> consistent (begin d) = true.
Proof. unfold consistent. by rewrite committed_begin, visible_begin. Qed.

Lemma consistent_rollback (d : Connection) : consistent d = true -> consistent (rollback d) = true.
Proof.
  unfold consistent. rewrite visible_rollback. cbn [committed rollback].
  intros H. apply andb_true_iff in H as [H _]. by rewrite H.
Qed.

Lemma consistent_write_begin (d : Connection) (t : option Table) :
  consistent d = true -> names_unique t = true -> consistent (write t (begin d)) = true.
Proof.
  unfold consistent. rewrite committed_write_begin, visible_write_begin.
  destruct d as [c [w|] l]; cbn; intros H Ht; apply andb_true_iff in H as [H1 H2];
    by rewrite ?H1, ?Ht.
Qed.

Lemma names_unique_inserted (t : Table) (s : string) (cell : sqlvalue) :
  names_unique (Some t) = true ->
  existsb (has_name s) (rows t) = false ->
  names_unique (Some (inserted t s cell)) = true.
Proof.
  cbn. intros Hu Hs. rewrite map_app. cbn.
  apply distinct_snoc; [exact Hu|]. by rewrite existsb_names.
Qed.

(** INSERT keeps names unique, whatever its outcome. *)
Lemma sql_insert_consistent (n r : value) (d d' : Connection) (o : outcome Z) :
  consistent d = true -> sql_insert n r d = (o, d') -> consistent d' = true.
Proof.
  intros Hc H. apply sql_insert_cases in H as [->|[->|[->|(t & s & cell & Ht & Hs & ->)]]].
  - exact Hc.
  - by apply consistent_begin.
  - by apply consistent_rollback.
  - unfold accepted, record_rowid, consistent. cbn [committed visible transaction].
    apply (consistent_write_begin _ (Some (inserted t s cell))); [exact Hc|].
    apply names_unique_inserted; [|exact Hs].
    unfold consistent in Hc. apply andb_true_iff in Hc as [_ Hv]. by rewrite Ht in Hv.
Qed.

(** ** Inserting a name that is already there *)

(** An INSERT of a text name and a rating the column accepts. *)
Lemma sql_insert_accepts (s : string) (r : value) (d : Connection) (t : Table) :
  visible d = Some t ->
  accepts_rating r = true ->
  sql_insert (VStr s) r d =
  if largest_rowid t =? max_int64 then (Raise OperationalError, rollback d)
  else if existsb (has_name s) (rows t) then (Raise IntegrityError, rollback d)
  else (Return (largest_rowid t + 1), accepted t s (stored_cell r) d).
Proof.
  intros Ht Hr. unfold accepts_rating, stored_cell, rating_cell in *.
  destruct (adapt r) as [sr|?|] eqn:Ha; try discriminate.
  destruct (real_affinity sr) as [cell|?|] eqn:Hc; try discriminate.
  apply (sql_insert_stored s r sr cell d t Ht Ha Hc). by intros ->.
Qed.

Lemma duplicate_insert_run (st : Py) (video_game : nat) (g : VideoGameModel)
    (s : string) (t : Table) :
  heap st !! video_game = Some g ->
  name g = VStr s ->
  accepts_rating (rating g) = true ->
  visible (db st) = Some t ->
  largest_rowid t < max_int64 ->
  existsb (has_name s) (rows t) = true ->
  add_video_game video_game st =
  (Raise IntegrityError, with_cursor opened (rollback (db st)) st).
Proof.
  intros Hg Hn Hr Ht Hk Hs.
  rewrite add_video_game_run, Hg, Hn.
  rewrite (sql_insert_accepts s (rating g) (db st) t Ht Hr), Hs.
  by destruct (Z.eqb_spec (largest_rowid t) max_int64); [lia|].
Qed.








(** ** Successful inserts *)

(** C7.  Whenever [add_video_game] returns, the table has gained one row
    under a rowid [k] larger than every rowid it held, and the object passed
    in has been updated in place: same name and rating, identifier [k],
    whatever its identifier was before. *)
Theorem add_video_game_writes_back (st st' : Py) (video_game : nat) :
  add_video_game video_game st = (Return tt, st') ->
  exists g t k s cell,
    heap st !! video_game = Some g /\
    visible (db st) = Some t /\
    visible (db st') = Some (mkTable (rows t ++ [mkRow k s cell]) k) /\
    (forall r, In r (rows t) -> row_id r < k) /\
    heap st' = <[video_game := mkVideoGameModel (name g) (rating g) (VInt k)]> (heap st) /\
    heap st' !! video_game = Some (mkVideoGameModel (name g) (rating g) (VInt k)).
Proof.
  rewrite add_video_game_run.
  destruct (heap st !! video_game) as [g|] eqn:Hg; [|discriminate].
  destruct (sql_insert (name g) (rating g) (db st)) as [[k|e|] d] eqn:Hi; try discriminate.
  intros H. injection H as <-. cbn [db heap].
  apply sql_insert_return in Hi as (t & s & cell & Ht & _ & _ & Hk & ->).
  exists g, t, k, s, cell.
  rewrite visible_accepted. unfold inserted. rewrite <- Hk.
  repeat split; try assumption.
  - intros r Hr. apply largest_rowid_bound in Hr. lia.
  - apply list_lookup_insert_eq. by apply lookup_lt_Some in Hg.
Qed.

Lemma add_video_game_writes_back_witness :
  exists g t k s cell,
    heap unsaved_game !! 0%nat = Some g /\
    visible (db unsaved_game) = Some t /\
    visible (db (snd (add_video_game 0 unsaved_game))) =
      Some (mkTable (rows t ++ [mkRow k s cell]) k) /\
    (forall r, In r (rows t) -> row_id r < k) /\
    heap (snd (add_video_game 0 unsaved_game)) =
      <[0%nat := mkVideoGameModel (name g) (rating g) (VInt k)]> (heap unsaved_game) /\
    heap (snd (add_video_game 0 unsaved_game)) !! 0%nat =
      Some (mkVideoGameModel (name g) (rating g) (VInt k)).
Proof.
  apply (add_video_game_writes_back unsaved_game (snd (add_video_game 0 unsaved_game)) 0).
  reflexivity.
Defined.

(** ** Round trip *)

(** The steps shared by the round trips: an accepted insert followed by the
    lookup of the same name, which makes the next object of the heap. *)
Lemma add_then_get_run (st : Py) (video_game : nat) (s : string) (r i : value)
    (sr cell : sqlvalue) (t : Table) :
  heap st !! video_game = Some (mkVideoGameModel (VStr s) r i) ->
  adapt r = Return sr ->
  real_affinity sr = Return cell ->
  cell <> SNull ->
  visible (db st) = Some t ->
  existsb (has_name s) (rows t) = false ->
  largest_rowid t < max_int64 ->
  exists st1 st2 k,
    add_video_game video_game st = (Return tt, st1) /\
    get_video_game_by_name (VStr s) st1 = (Return (length (heap st)), st2) /\
    heap st1 !! video_game = Some (mkVideoGameModel (VStr s) r (VInt k)) /\
    heap st2 !! video_game = Some (mkVideoGameModel (VStr s) r (VInt k)) /\
    heap st2 !! length (heap st)
      = Some (mkVideoGameModel (VStr s) (to_python cell) (VInt k)).
Proof.
  intros Hg Ha Hr Hc Ht Hs Hk.
  rewrite add_video_game_run, Hg. cbn [name rating].
  rewrite (sql_insert_stored s r sr cell (db st) t Ht Ha Hr Hc), Hs.
  destruct (largest_rowid t =? max_int64) eqn:E; [apply Z.eqb_eq in E; lia|].
  set (k := largest_rowid t + 1).
  eexists _, _, k. split; [reflexivity|].
  rewrite get_video_game_by_name_run. cbn [db heap cursors].
  unfold sql_select_by_name. rewrite visible_accepted. cbn [adapt text_affinity].
  unfold inserted. cbn [rows]. rewrite List.filter_app, (filter_none _ _ Hs).
  cbn [List.filter app]. unfold has_name at 1. cbn [row_name]. rewrite String.eqb_refl.
  cbn [map select_tuple row_name row_rating row_id VideoGameModel_init].
  assert (video_game < length (heap st))%nat as Hlt by (by apply lookup_lt_Some in Hg).
  assert (<[video_game:=mkVideoGameModel (VStr s) r (VInt k)]> (heap st) !! video_game
          = Some (mkVideoGameModel (VStr s) r (VInt k))) as Hl
    by (by apply list_lookup_insert_eq).
  rewrite length_insert.
  split; [reflexivity|]. cbn [heap].
  split; [exact Hl|].
  split; [by apply lookup_app_l_Some|].
  rewrite <- (length_insert (heap st) video_game (mkVideoGameModel (VStr s) r (VInt k))).
  apply lookup_new.
Qed.

(** C6 (as amended).  On a connection whose table exists and has rowids
    left, for an object whose name is a text not in the table and whose
    rating is a real other than NaN: [add_video_game] returns, and
    [get_video_game_by_name] on that name then returns a new object with the
    same name, the integer identifier that was written back, and the rating
    as the REAL column gives it back: the real that was inserted, bit for
    bit, except that a negative zero is read back as 0.0. *)
Theorem add_then_get (st : Py) (video_game : nat) (s : string) (f : spec_float)
    (i : value) (t : Table) :
  heap st !! video_game = Some (mkVideoGameModel (VStr s) (VFloat f) i) ->
  is_nan f = false ->
  visible (db st) = Some t ->
  existsb (has_name s) (rows t) = false ->
  largest_rowid t < max_int64 ->
  exists st1 st2 found k,
    add_video_game video_game st = (Return tt, st1) /\
    get_video_game_by_name (VStr s) st1 = (Return found, st2) /\
    heap st1 !! video_game = Some (mkVideoGameModel (VStr s) (VFloat f) (VInt k)) /\
    heap st2 !! found = Some (mkVideoGameModel (VStr s) (VFloat (stored_real f)) (VInt k)) /\
    (f <> S754_zero true -> stored_real f = f) /\
    found <> video_game.
Proof.
  intros Hg Hf Ht Hs Hk.
  destruct (add_then_get_run st video_game s (VFloat f) i (SReal f) (SReal (stored_real f)) t)
    as (st1 & st2 & k & H1 & H2 & H3 & _ & H5); try done.
  { cbn. by rewrite Hf. }
  exists st1, st2, (length (heap st)), k.
  repeat split; try assumption.
  - by destruct f as [[]| | |].
  - apply lookup_lt_Some in Hg. lia.
Qed.

Lemma add_then_get_witness :
  exists st1 st2 found k,
    add_video_game 0 unsaved_game = (Return tt, st1) /\
    get_video_game_by_name (VStr "Hades") st1 = (Return found, st2) /\
    heap st1 !! 0%nat = Some (mkVideoGameModel (VStr "Hades") (VFloat (float_of_Z 93)) (VInt k)) /\
    heap st2 !! found = Some (mkVideoGameModel (VStr "Hades") (VFloat (float_of_Z 93)) (VInt k)) /\
    (float_of_Z 93 <> S754_zero true -> stored_real (float_of_Z 93) = float_of_Z 93) /\
    found <> 0%nat.
Proof.
  apply (add_then_get unsaved_game 0 "Hades" (float_of_Z 93) (VInt 41) (mkTable [] 0));
    reflexivity.
Defined.

(** C6 as stated fails on the object [main] itself builds, whose rating is the
    text "90": the column's REAL affinity stores the number, and the object
    read back holds the float 90.0. *)
Lemma main_rating_not_preserved :
  let st0 := snd ((create_video_game_table ;;;
                   VideoGameModel_new [VStr "Satisfactory"; VStr "90"]) fresh) in
  let st1 := snd (add_video_game 0 st0) in
  fst (add_video_game 0 st0) = Return tt /\
  fst (get_video_game_by_name (VStr "Satisfactory") st1) = Return 1%nat /\
  (rating <$> heap st1 !! 0%nat) = Some (VStr "90") /\
  (rating <$> heap (snd (get_video_game_by_name (VStr "Satisfactory") st1)) !! 1%nat)
    = Some (VFloat (float_of_Z 90)) /\
  VFloat (float_of_Z 90) <> VStr "90".
Proof. vm_compute. repeat split; discriminate. Qed.

(** ** Lookup by name *)

Lemma sql_select_by_name_text (s : string) (d : Connection) :
  sql_select_by_name (VStr s) d =
  match visible d with
  | None => (Raise OperationalError, d)
  | Some _ => (Return (map select_tuple (matching s d)), d)
  end.
Proof.
  unfold sql_select_by_name, matching. by destruct (visible d).
Qed.

Lemma VideoGameModel_init_tuple (r : row) :
  VideoGameModel_init (select_tuple r) = Return (of_row r).
Proof. reflexivity. Qed.

Lemma matching_name (s : string) (d : Connection) (r : row) :
  In r (matching s d) -> row_name r = s.
Proof.
  unfold matching. destruct (visible d) as [t|]; [|intros []].
  intros H. apply filter_In in H as [_ H]. by apply String.eqb_eq in H.
Qed.

(** C2 (as amended).  For a text [s]: when no row is named [s],
    [get_video_game_by_name] raises the [TypeError] of unpacking [None]
    ([OperationalError] when there is no table), leaving connection and
    objects as they were; whenever it returns, the result is a new object
    made from a stored row named [s], holding that name, the rating of the
    row and its rowid, never an empty one; and when exactly one row is named
    [s] it returns the object of that row. *)
Theorem get_video_game_by_name_found_or_raises (st : Py) (s : string) :
  (matching s (db st) = [] ->
   exists e st',
     get_video_game_by_name (VStr s) st = (Raise e, st') /\
     e = match visible (db st) with
         | Some _ => TypeError
         | None => OperationalError
         end /\
     db st' = db st /\
     heap st' = heap st) /\
  (forall found st',
     get_video_game_by_name (VStr s) st = (Return found, st') ->
     exists r,
       In r (matching s (db st)) /\
       heap st' = heap st ++ [of_row r] /\
       heap st' !! found
         = Some (mkVideoGameModel (VStr s) (to_python (row_rating r)) (VInt (row_id r)))) /\
  (forall r,
     matching s (db st) = [r] ->
     exists st',
       get_video_game_by_name (VStr s) st = (Return (length (heap st)), st') /\
       heap st' = heap st ++ [of_row r] /\
       db st' = db st).
Proof.
  rewrite get_video_game_by_name_run, sql_select_by_name_text.
  split; [|split].
  - intros Hm. rewrite Hm. destruct (visible (db st)); by eexists _, _.
  - intros found st'.
    destruct (visible (db st)) as [t|] eqn:Ht; [|discriminate].
    destruct (matching s (db st)) as [|r rest] eqn:Hm; [discriminate|].
    cbn [map]. rewrite VideoGameModel_init_tuple.
    intros H. injection H as <- <-. cbn [heap].
    exists r. split; [by left|].
    split; [reflexivity|].
    rewrite lookup_new. unfold of_row.
    rewrite (matching_name s (db st) r); [reflexivity|]. rewrite Hm. by left.
  - intros r Hm. rewrite Hm.
    destruct (visible (db st)) as [t|] eqn:Ht.
    + cbn [map]. rewrite VideoGameModel_init_tuple. by eexists.
    + unfold matching in Hm. by rewrite Ht in Hm.
Qed.

Lemma get_video_game_by_name_found_or_raises_witness :
  (exists e st',
     get_video_game_by_name (VStr "Nonexistent") one_game = (Raise e, st') /\
     e = TypeError /\
     db st' = db one_game /\
     heap st' = heap one_game) /\
  (exists st',
     get_video_game_by_name (VStr "Satisfactory") one_game = (Return 2%nat, st') /\
     heap st' = heap one_game ++ [of_row (mkRow 1 "Satisfactory" (SReal (float_of_Z 90)))] /\
     db st' = db one_game).
Proof.
  split.
  - apply (proj1 (get_video_game_by_name_found_or_raises one_game "Nonexistent")).
    reflexivity.
  - apply (proj2 (proj2 (get_video_game_by_name_found_or_raises one_game "Satisfactory"))).
    reflexivity.
Defined.

(** C2 as stated fails: the program has no error of its own for a name that
    is not found.  The lookup of an absent name raises the [TypeError] that
    Python raises when [None] is unpacked into the constructor, not an error
    of the not-found kind. *)
Lemma lookup_of_absent_name_raises_TypeError :
  matching "Nonexistent" (db one_game) = [] /\
  fst (get_video_game_by_name (VStr "Nonexistent") one_game) = Raise TypeError /\
  fst (get_video_game_by_name (VStr "Nonexistent") one_game) <> Raise LookupError.
Proof. vm_compute. repeat split; discriminate. Qed.

(** ** Deleting by identifier *)

Lemma sql_delete_by_id_int (z : Z) (d : Connection) (t : Table) :
  visible d = Some t ->
  min_int64 <= z <= max_int64 ->
  sql_delete_by_id (VInt z) d =
  (Return tt,
   write (Some (mkTable (List.filter (fun r => negb (has_id z r)) (rows t)) (seq t))) (begin d)).
Proof.
  intros Ht Hz. unfold sql_delete_by_id. rewrite Ht. cbn [adapt].
  destruct (min_int64 <=? z) eqn:E1; [|apply Z.leb_gt in E1; lia].
  destruct (z <=? max_int64) eqn:E2; [|apply Z.leb_gt in E2; lia].
  reflexivity.
Qed.

(** C9 (as amended).  On a connection whose table exists, for an integer [z]
    that fits in 64 bits: [delete_video_game_by_id] returns; the table keeps,
    in order, exactly the rows whose rowid is not [z]; and when no row has
    rowid [z] the table is the same as before. *)
Theorem delete_video_game_by_id_removes (st : Py) (t : Table) (z : Z) :
  visible (db st) = Some t ->
  min_int64 <= z <= max_int64 ->
  exists st' t',
    delete_video_game_by_id (VInt z) st = (Return tt, st') /\
    visible (db st') = Some t' /\
    rows t' = List.filter (fun r => negb (has_id z r)) (rows t) /\
    (forall r, In r (rows t') <-> In r (rows t) /\ row_id r <> z) /\
    heap st' = heap st /\
    (existsb (has_id z) (rows t) = false -> visible (db st') = visible (db st)).
Proof.
  intros Ht Hz.
  rewrite delete_video_game_by_id_run, (sql_delete_by_id_int z (db st) t Ht Hz).
  eexists _, _. split; [reflexivity|].
  cbn [with_cursor db heap]. rewrite visible_write_begin.
  split; [reflexivity|]. cbn [rows].
  split; [reflexivity|].
  split; [|split; [reflexivity|]].
  - intros r. rewrite filter_In. unfold has_id.
    rewrite negb_true_iff, Z.eqb_neq. tauto.
  - intros Hnone. rewrite Ht. f_equal.
    rewrite filter_all.
    + by destruct t.
    + rewrite <- Hnone. clear. induction (rows t) as [|r l IH]; [reflexivity|].
      cbn. by rewrite IH, negb_involutive.
Qed.

Lemma delete_video_game_by_id_removes_witness :
  exists st' t',
    delete_video_game_by_id (VInt 999999) two_games = (Return tt, st') /\
    visible (db st') = Some t' /\
    rows t' = List.filter (fun r => negb (has_id 999999 r))
                [mkRow 1 "Portal" (SReal (float_of_Z 95));
                 mkRow 2 "Celeste" (SReal (float_of_Z 92))] /\
    (forall r, In r (rows t') <->
               In r [mkRow 1 "Portal" (SReal (float_of_Z 95));
                     mkRow 2 "Celeste" (SReal (float_of_Z 92))] /\ row_id r <> 999999) /\
    heap st' = heap two_games /\
    (existsb (has_id 999999)
       [mkRow 1 "Portal" (SReal (float_of_Z 95));
        mkRow 2 "Celeste" (SReal (float_of_Z 92))] = false ->
     visible (db st') = visible (db two_games)).
Proof.
  apply (delete_video_game_by_id_removes two_games
           (mkTable [mkRow 1 "Portal" (SReal (float_of_Z 95));
                     mkRow 2 "Celeste" (SReal (float_of_Z 92))] 2) 999999).
  - reflexivity.
  - unfold min_int64, max_int64. lia.
Defined.

(** C9 as stated fails for an integer outside the 64-bit range: no row has
    that identifier, yet binding it raises [OverflowError]. *)
Lemma delete_large_id_raises :
  option_map rows (visible (db two_games)) =
    Some [mkRow 1 "Portal" (SReal (float_of_Z 95));
          mkRow 2 "Celeste" (SReal (float_of_Z 92))] /\
  fst (delete_video_game_by_id (VInt (2 ^ 63)) two_games) = Raise OverflowError.
Proof. by vm_compute. Qed.

(** ** Creating the table *)

Lemma sql_create_table_exists (d : Connection) :
  exists t, visible (snd (sql_create_table d)) = Some t.
Proof.
  unfold sql_create_table.
  destruct (visible d) as [t|] eqn:Hv; [by exists t|].
  exists (mkTable [] 0). destruct d as [c [w|] l]; cbn in *; [by subst|reflexivity].
Qed.

Lemma sql_create_table_idle (d : Connection) (t : Table) :
  visible d = Some t -> sql_create_table d = (Return tt, d).
Proof. intros H. unfold sql_create_table. by rewrite H. Qed.

(** C8.  [create_video_game_table] returns on every state, and so does a
    second call right after it; the second call leaves the connection as the
    first made it, neither touches the objects, and on a connection whose
    table already exists the first call leaves table, rows and transaction
    as they are. *)
Theorem create_video_game_table_idempotent (st : Py) :
  exists st1 st2,
    create_video_game_table st = (Return tt, st1) /\
    create_video_game_table st1 = (Return tt, st2) /\
    db st2 = db st1 /\
    heap st2 = heap st /\
    (forall t, visible (db st) = Some t -> db st1 = db st).
Proof.
  rewrite create_video_game_table_run.
  eexists _, _. split; [reflexivity|].
  rewrite create_video_game_table_run. split; [reflexivity|].
  cbn [with_cursor db heap].
  destruct (sql_create_table_exists (db st)) as [t1 Ht1].
  rewrite (sql_create_table_idle _ t1 Ht1). cbn [snd].
  repeat split.
  intros t Ht. by rewrite (sql_create_table_idle _ t Ht).
Qed.

Lemma create_video_game_table_idempotent_witness :
  exists st1 st2,
    create_video_game_table two_games = (Return tt, st1) /\
    create_video_game_table st1 = (Return tt, st2) /\
    db st2 = db st1 /\
    heap st2 = heap two_games /\
    db st1 = db two_games.
Proof.
  destruct (create_video_game_table_idempotent two_games)
    as (st1 & st2 & H1 & H2 & H3 & H4 & H5).
  exists st1, st2. repeat split; try assumption.
  apply (H5 (mkTable [mkRow 1 "Portal" (SReal (float_of_Z 95));
                      mkRow 2 "Celeste" (SReal (float_of_Z 92))] 2)).
  reflexivity.
Defined.

(** ** The identifier *)

(** C5 (as amended).  Assigning [v] to [video_game.id] raises [ValueError]
    at once, leaving the object as it was, when [v] is not an instance of
    [int]; when it is one ([bool] included), the assignment returns and the
    object holds [v]. *)
Theorem id_setter_guard (st : Py) (video_game : nat) (g : VideoGameModel) (v : value) :
  heap st !! video_game = Some g ->
  (isinstance_int v = false -> setattr_id video_game v st = (Raise ValueError, st)) /\
  (isinstance_int v = true ->
   exists st',
     setattr_id video_game v st = (Return tt, st') /\
     heap st' !! video_game = Some (mkVideoGameModel (name g) (rating g) v) /\
     (id_getter <$> heap st' !! video_game) = Some v).
Proof.
  intros Hg. unfold setattr_id, id_setter. rewrite Hg.
  split; intros Hv; rewrite Hv; cbn [negb]; [reflexivity|].
  eexists. split; [reflexivity|]. cbn [heap].
  assert (<[video_game:=mkVideoGameModel (name g) (rating g) v]> (heap st) !! video_game
          = Some (mkVideoGameModel (name g) (rating g) v)) as Hl
    by (apply list_lookup_insert_eq; by apply lookup_lt_Some in Hg).
  split; [exact Hl|]. by rewrite Hl.
Qed.

Lemma id_setter_guard_witness :
  setattr_id 0 (VFloat (float_of_Z 7)) unsaved_game = (Raise ValueError, unsaved_game) /\
  exists st',
    setattr_id 0 (VInt 7) unsaved_game = (Return tt, st') /\
    heap st' !! 0%nat = Some (mkVideoGameModel (VStr "Hades") (VFloat (float_of_Z 93)) (VInt 7)) /\
    (id_getter <$> heap st' !! 0%nat) = Some (VInt 7).
Proof.
  split.
  - apply (proj1 (id_setter_guard unsaved_game 0
             (mkVideoGameModel (VStr "Hades") (VFloat (float_of_Z 93)) (VInt 41))
             (VFloat (float_of_Z 7)) eq_refl)).
    reflexivity.
  - apply (proj2 (id_setter_guard unsaved_game 0
             (mkVideoGameModel (VStr "Hades") (VFloat (float_of_Z 93)) (VInt 41))
             (VInt 7) eq_refl)).
    reflexivity.
Defined.

(** C5 as stated fails: the exception of the setter is [ValueError], not
    [TypeError]. *)
Lemma id_setter_raises_ValueError :
  isinstance_int (VStr "7") = false /\
  fst (setattr_id 0 (VStr "7") unsaved_game) = Raise ValueError /\
  fst (setattr_id 0 (VStr "7") unsaved_game) <> Raise TypeError.
Proof. vm_compute. repeat split; discriminate. Qed.

(** C10.  The constructor stores whatever it is given: every triple of values
    yields a new object holding them, and so an object exists whose
    identifier is a text and whose rating is a text, values that the setter
    of [id] refuses. *)
Theorem constructor_unguarded :
  (forall (n r i : value) (st : Py),
     VideoGameModel_new [n; r; i] st =
     (Return (length (heap st)),
      mkPy (db st) (cursors st) (heap st ++ [mkVideoGameModel n r i]))) /\
  (exists v r g,
     isinstance_int v = false /\
     adapt r = Return (SText "great") /\
     VideoGameModel_init [VStr "Satisfactory"; r; v] = Return g /\
     id_getter g = v /\ rating g = r /\
     id_setter g v = Raise ValueError).
Proof.
  split; [reflexivity|].
  exists (VStr "one"), (VStr "great"). eexists. by repeat split.
Qed.

(** ** Cursors *)

(** C3 fails on the paths where the statement raises.  A lookup of a name
    that is not there raises [TypeError], a duplicate insert raises
    [IntegrityError], and in both final states the cursor the call acquired
    is still open: [cursor.close()] after the [yield] was never reached. *)
Theorem cursor_left_open_on_error :
  (fst (get_video_game_by_name (VStr "Nonexistent") empty_store) = Raise TypeError /\
   (closed <$> cursors (snd (get_video_game_by_name (VStr "Nonexistent") empty_store))
               !! length (cursors empty_store)) = Some false) /\
  (fst (add_video_game 1 one_game) = Raise IntegrityError /\
   (closed <$> cursors (snd (add_video_game 1 one_game)) !! length (cursors one_game))
     = Some false).
Proof. by vm_compute. Qed.

(** ** States the program can reach *)

Lemma append_video_games_db (l : list (list value)) (acc : list nat) (st : Py) :
  db (snd (append_video_games l acc st)) = db st.
Proof.
  revert acc st. induction l as [|r l IH]; intros acc st; [reflexivity|].
  cbn [append_video_games]. unfold bind, VideoGameModel_new.
  destruct (VideoGameModel_init r) as [g|e|]; try reflexivity.
  by rewrite IH.
Qed.

Lemma get_all_video_games_db (st : Py) : db (snd (get_all_video_games st)) = db st.
Proof.
  unfold get_all_video_games. run. unfold sql_select_all.
  destruct (visible (db st)) as [t|]; run; [|reflexivity].
  match goal with |- context [append_video_games ?l ?a ?s] =>
    pose proof (append_video_games_db l a s) as Hdb;
    destruct (append_video_games l a s) as [[gs|e|] s1]
  end; cbn [snd db] in *; try exact Hdb.
  destruct (cursors s1 !! length (cursors st)); exact Hdb.
Qed.

Lemma get_video_game_by_name_db (n : value) (st : Py) :
  db (snd (get_video_game_by_name n st)) = db st.
Proof.
  rewrite get_video_game_by_name_run.
  assert (snd (sql_select_by_name n (db st)) = db st) as Hsel.
  { unfold sql_select_by_name. destruct (visible (db st)); [|reflexivity].
    destruct (adapt n) as [sn|?|]; try reflexivity.
    by destruct (text_affinity sn) as [[s|]|?|]. }
  destruct (sql_select_by_name n (db st)) as [[[|args rest]|e|] d]; cbn [snd] in Hsel;
    subst d; try reflexivity.
  by destruct (VideoGameModel_init args).
Qed.

Lemma sql_delete_by_id_consistent (i : value) (d : Connection) :
  consistent d = true -> consistent (snd (sql_delete_by_id i d)) = true.
Proof.
  intros Hc. unfold sql_delete_by_id.
  destruct (visible d) as [t|] eqn:Ht; [|exact Hc].
  destruct (adapt i) as [[| z | f | s]|?|]; cbn [snd]; try by apply consistent_begin.
  apply consistent_write_begin; [exact Hc|].
  cbn. apply distinct_filter.
  unfold consistent in Hc. apply andb_true_iff in Hc as [_ Hv]. by rewrite Ht in Hv.
Qed.

Lemma sql_create_table_consistent (d : Connection) :
  consistent d = true -> consistent (snd (sql_create_table d)) = true.
Proof.
  intros Hc. unfold sql_create_table.
  destruct (visible d) as [t|] eqn:Ht; [exact Hc|].
  destruct d as [c [w|] l]; cbn in *; [|reflexivity].
  subst w. unfold consistent in *. cbn in *. by rewrite andb_true_r in *.
Qed.

(** In every reachable state no two rows share a name, in the committed table
    and in the open transaction alike. *)
Lemma reachable_consistent (st : Py) : reachable st -> consistent (db st) = true.
Proof.
  induction 1 as [|st args _ IH|st _ IH|st r _ IH|st _ IH|st n _ IH|st i _ IH].
  - reflexivity.
  - unfold VideoGameModel_new. by destruct (VideoGameModel_init args).
  - rewrite create_video_game_table_run. cbn [snd with_cursor db].
    by apply sql_create_table_consistent.
  - rewrite add_video_game_run.
    destruct (heap st !! r) as [g|]; [|exact IH].
    destruct (sql_insert (name g) (rating g) (db st)) as [o d] eqn:Hi.
    pose proof (sql_insert_consistent _ _ _ _ _ IH Hi) as Hd.
    by destruct o.
  - by rewrite get_all_video_games_db.
  - by rewrite get_video_game_by_name_db.
  - rewrite delete_video_game_by_id_run.
    pose proof (sql_delete_by_id_consistent i (db st) IH) as Hd.
    by destruct (sql_delete_by_id i (db st)) as [[u|e|] d].
Qed.

(** ** The demonstration *)

(** What [main()] prints on a fresh in-memory connection: the object before
    and after the insert, the listing, the object found by name (its rating
    now the float 90.0), and the empty listing after the delete. *)
Lemma main_prints :
  fst (main fresh) =
  Return
    [[mkVideoGameModel (VStr "Satisfactory") (VStr "90") VNone];
     [mkVideoGameModel (VStr "Satisfactory") (VStr "90") (VInt 1)];
     [mkVideoGameModel (VStr "Satisfactory") (VFloat (float_of_Z 90)) (VInt 1)];
     [mkVideoGameModel (VStr "Satisfactory") (VFloat (float_of_Z 90)) (VInt 1)];
     []].
Proof. by vm_compute. Qed.

(** ** Listing *)

Lemma append_video_games_run (rs : list row) (acc : list nat) (st : Py) :
  append_video_games (map select_tuple rs) acc st =
  (Return (acc ++ fresh_refs (length (heap st)) (length rs)),
   mkPy (db st) (cursors st) (heap st ++ map of_row rs)).
Proof.
  revert acc st. induction rs as [|r rs IH]; intros acc st.
  - cbn. unfold ret. rewrite !app_nil_r. by destruct st.
  - cbn [map append_video_games]. unfold bind, VideoGameModel_new.
    rewrite VideoGameModel_init_tuple, IH. cbn [db cursors heap].
    rewrite length_app. cbn [length fresh_refs List.seq].
    rewrite <- !app_assoc. cbn [app].
    by replace (length (heap st) + 1)%nat with (S (length (heap st))) by lia.
Qed.

Lemma get_all_video_games_run (st : Py) :
  get_all_video_games st =
  match visible (db st) with
  | None => (Raise OperationalError, with_cursor opened (db st) st)
  | Some t =>
      (Return (fresh_refs (length (heap st)) (length (rows t))),
       mkPy (db st) (cursors st ++ [done_with (db st)])
         (heap st ++ map of_row (rows t)))
  end.
Proof.
  unfold get_all_video_games. run. unfold sql_select_all.
  destruct (visible (db st)) as [t|]; run; [|reflexivity].
  rewrite append_video_games_run. run. reflexivity.
Qed.

Lemma lookup_map {A B} (f : A -> B) (l : list A) (i : nat) :
  map f l !! i = f <$> l !! i.
Proof.
  revert i. induction l as [|x l IH]; intros [|i]; try reflexivity. apply IH.
Qed.

(** X1.  On a connection whose table exists, [get_all_video_games] returns
    one new object per row, in table order, each holding the name, rating
    and rowid of its row; objects that existed keep their reference and
    content, the connection is untouched, and an empty table gives the empty
    list. *)
Theorem get_all_video_games_lists_rows (st : Py) (t : Table) :
  visible (db st) = Some t ->
  exists video_games st',
    get_all_video_games st = (Return video_games, st') /\
    length video_games = length (rows t) /\
    (forall i r, rows t !! i = Some r ->
       exists ref, video_games !! i = Some ref /\
                   (length (heap st) <= ref)%nat /\
                   heap st' !! ref = Some (of_row r)) /\
    (forall ref g, heap st !! ref = Some g -> heap st' !! ref = Some g) /\
    db st' = db st /\
    (rows t = [] -> video_games = []).
Proof.
  intros Ht. rewrite get_all_video_games_run, Ht.
  eexists _, _. split; [reflexivity|]. cbn [db heap].
  split; [apply length_seq|].
  split; [|split; [|split; [reflexivity|]]].
  - intros i r Hr. exists (length (heap st) + i)%nat.
    split; [|split; [lia|]].
    + apply lookup_seq_lt. by apply lookup_lt_Some in Hr.
    + rewrite lookup_app_r by lia.
      replace (length (heap st) + i - length (heap st))%nat with i by lia.
      by rewrite lookup_map, Hr.
  - intros ref g Hg. by apply lookup_app_l_Some.
  - by intros ->.
Qed.

Lemma get_all_video_games_lists_rows_witness :
  exists video_games st',
    get_all_video_games two_games = (Return video_games, st') /\
    length video_games = 2%nat /\
    (forall i r,
       [mkRow 1 "Portal" (SReal (float_of_Z 95));
        mkRow 2 "Celeste" (SReal (float_of_Z 92))] !! i = Some r ->
       exists ref, video_games !! i = Some ref /\
                   (length (heap two_games) <= ref)%nat /\
                   heap st' !! ref = Some (of_row r)) /\
    (forall ref g, heap two_games !! ref = Some g -> heap st' !! ref = Some g) /\
    db st' = db two_games /\
    ([mkRow 1 "Portal" (SReal (float_of_Z 95));
      mkRow 2 "Celeste" (SReal (float_of_Z 92))] = [] -> video_games = []).
Proof.
  apply (get_all_video_games_lists_rows two_games
           (mkTable [mkRow 1 "Portal" (SReal (float_of_Z 95));
                     mkRow 2 "Celeste" (SReal (float_of_Z 92))] 2)).
  reflexivity.
Defined.

(** ** Without the table *)

Lemma sql_insert_missing (n r : value) (d : Connection) :
  visible d = None -> sql_insert n r d = (Raise OperationalError, d).
Proof. intros H. unfold sql_insert. by rewrite H. Qed.

Lemma sql_select_by_name_missing (n : value) (d : Connection) :
  visible d = None -> sql_select_by_name n d = (Raise OperationalError, d).
Proof. intros H. unfold sql_select_by_name. by rewrite H. Qed.

Lemma sql_delete_by_id_missing (i : value) (d : Connection) :
  visible d = None -> sql_delete_by_id i d = (Raise OperationalError, d).
Proof. intros H. unfold sql_delete_by_id. by rewrite H. Qed.

(** X2.  While the table does not exist, the four functions that read or
    write it raise [OperationalError] whatever their argument; the connection
    stays as it was (no transaction is begun), no object is made or changed,
    and the only trace is the cursor of the call, left open. *)
Theorem missing_table_raises (st : Py) (video_game : nat) (g : VideoGameModel)
    (n i : value) :
  visible (db st) = None ->
  heap st !! video_game = Some g ->
  add_video_game video_game st = (Raise OperationalError, with_cursor opened (db st) st) /\
  get_all_video_games st = (Raise OperationalError, with_cursor opened (db st) st) /\
  get_video_game_by_name n st = (Raise OperationalError, with_cursor opened (db st) st) /\
  delete_video_game_by_id i st = (Raise OperationalError, with_cursor opened (db st) st).
Proof.
  intros Hv Hg.
  rewrite add_video_game_run, Hg, (sql_insert_missing _ _ _ Hv).
  rewrite get_all_video_games_run, Hv.
  rewrite get_video_game_by_name_run, (sql_select_by_name_missing _ _ Hv).
  rewrite delete_video_game_by_id_run, (sql_delete_by_id_missing _ _ Hv).
  by repeat split.
Qed.

(** A fresh connection and one object, before any table is created. *)
Lemma missing_table_raises_witness :
  let st := snd (VideoGameModel_new [VStr "Hades"; VFloat (float_of_Z 93)] fresh) in
  add_video_game 0 st = (Raise OperationalError, with_cursor opened (db st) st) /\
  get_all_video_games st = (Raise OperationalError, with_cursor opened (db st) st) /\
  get_video_game_by_name (VStr "Hades") st
    = (Raise OperationalError, with_cursor opened (db st) st) /\
  delete_video_game_by_id (VInt 1) st
    = (Raise OperationalError, with_cursor opened (db st) st).
Proof.
  apply (missing_table_raises
           (snd (VideoGameModel_new [VStr "Hades"; VFloat (float_of_Z 93)] fresh)) 0
           (mkVideoGameModel (VStr "Hades") (VFloat (float_of_Z 93)) VNone)
           (VStr "Hades") (VInt 1)); reflexivity.
Defined.

(** ** One cursor per call *)

(** X3.  Each of the five functions makes exactly one cursor, placed after
    the cursors that existed, which it leaves untouched; when the function
    returns that cursor is closed, and when it does not return the cursor is
    still open. *)
Theorem one_cursor_per_call (st : Py) (video_game : nat) (n i : value) :
  one_cursor st (create_video_game_table st) /\
  one_cursor st (add_video_game video_game st) /\
  one_cursor st (get_all_video_games st) /\
  one_cursor st (get_video_game_by_name n st) /\
  one_cursor st (delete_video_game_by_id i st).
Proof.
  unfold one_cursor.
  rewrite create_video_game_table_run, add_video_game_run, get_all_video_games_run,
    get_video_game_by_name_run, delete_video_game_by_id_run.
  repeat split.
  - by eexists.
  - destruct (heap st !! video_game) as [g|]; [|by eexists].
    by destruct (sql_insert (name g) (rating g) (db st)) as [[k|e|] d]; eexists.
  - by destruct (visible (db st)); eexists.
  - destruct (sql_select_by_name n (db st)) as [[[|args rest]|e|] d]; try by eexists.
    by destruct (VideoGameModel_init args); eexists.
  - by destruct (sql_delete_by_id i (db st)) as [[u|e|] d]; eexists.
Qed.

(** ** Reading *)

(** X4.  The two reading functions never change the connection (table,
    counter, transaction) and never change or drop an existing object: the
    heap after the call is the heap before it followed by the objects the
    call made, whether it returned or raised. *)
Theorem reads_change_nothing (st : Py) (n : value) :
  db (snd (get_all_video_games st)) = db st /\
  db (snd (get_video_game_by_name n st)) = db st /\
  (exists made, heap (snd (get_all_video_games st)) = heap st ++ made) /\
  (exists made, heap (snd (get_video_game_by_name n st)) = heap st ++ made).
Proof.
  split; [apply get_all_video_games_db|].
  split; [apply get_video_game_by_name_db|].
  rewrite get_all_video_games_run, get_video_game_by_name_run.
  split.
  - destruct (visible (db st)); cbn [snd heap with_cursor]; [by eexists|].
    exists []. by rewrite app_nil_r.
  - destruct (sql_select_by_name n (db st)) as [[[|args rest]|e|] d];
      cbn [snd heap with_cursor]; try (exists []; by rewrite app_nil_r).
    destruct (VideoGameModel_init args); cbn [snd heap with_cursor];
      try (exists []; by rewrite app_nil_r).
    by eexists.
Qed.

(** ** Rowids *)

Lemma ascending_weaken (lo lo' : Z) (l : list Z) :
  lo' <= lo -> ascending lo l = true -> ascending lo' l = true.
Proof.
  destruct l as [|x l]; [reflexivity|]. cbn. intros Hle H.
  apply andb_true_iff in H as [Hx Hl]. rewrite Hl, andb_true_r.
  apply Z.ltb_lt in Hx. apply Z.ltb_lt. lia.
Qed.

Lemma ascending_filter (p : row -> bool) (lo : Z) (l : list row) :
  ascending lo (map row_id l) = true ->
  ascending lo (map row_id (List.filter p l)) = true.
Proof.
  revert lo. induction l as [|r l IH]; intros lo; [reflexivity|].
  cbn. intros H. apply andb_true_iff in H as [Hx Hl].
  destruct (p r); cbn.
  - by rewrite Hx, IH.
  - apply IH. apply (ascending_weaken (row_id r)); [|exact Hl].
    apply Z.ltb_lt in Hx. lia.
Qed.

Lemma ascending_snoc (lo s : Z) (l : list Z) :
  ascending lo l = true ->
  forallb (fun k => k <=? s) l = true ->
  lo <= s ->
  ascending lo (l ++ [s + 1]) = true.
Proof.
  revert lo. induction l as [|x l IH]; intros lo.
  - cbn. intros _ _ Hle. rewrite andb_true_r. apply Z.ltb_lt. lia.
  - cbn. intros H Hb _.
    apply andb_true_iff in H as [Hx Hl]. apply andb_true_iff in Hb as [Hxs Hb].
    rewrite Hx. cbn. apply IH; try assumption. by apply Z.leb_le in Hxs.
Qed.

Lemma ascending_above (lo : Z) (l : list Z) (j : nat) (y : Z) :
  ascending lo l = true -> l !! j = Some y -> lo < y.
Proof.
  revert lo j. induction l as [|w l IH]; intros lo j; [discriminate|].
  cbn [ascending]. intros H Hj.
  apply andb_true_iff in H as [Hw Hl]. apply Z.ltb_lt in Hw.
  destruct j as [|j]; [by injection Hj as <-|].
  cbn in Hj. specialize (IH w j Hl Hj). lia.
Qed.

Lemma ascending_lookup (lo : Z) (l : list Z) (i j : nat) (x y : Z) :
  ascending lo l = true ->
  l !! i = Some x -> l !! j = Some y -> (i < j)%nat -> x < y.
Proof.
  revert lo i j. induction l as [|z l IH]; intros lo i j; [discriminate|].
  cbn [ascending]. intros H Hi Hj Hij.
  apply andb_true_iff in H as [Hz Hl].
  destruct j as [|j]; [lia|]. cbn in Hj.
  destruct i as [|i].
  - injection Hi as <-. by apply (ascending_above z l j).
  - cbn in Hi. apply (IH z i j Hl Hi Hj). lia.
Qed.

Lemma forallb_filter_ids (q : Z -> bool) (p : row -> bool) (l : list row) :
  forallb q (map row_id l) = true -> forallb q (map row_id (List.filter p l)) = true.
Proof.
  induction l as [|r l IH]; [reflexivity|].
  cbn. intros H. apply andb_true_iff in H as [Hr Hl].
  destruct (p r); cbn; [by rewrite Hr, IH|by apply IH].
Qed.

Lemma numbered_parts (t : Table) :
  numbered (Some t) = true ->
  ascending 0 (map row_id (rows t)) = true /\
  forallb (fun k => k <=? seq t) (map row_id (rows t)) = true /\
  0 <= seq t <= max_int64.
Proof.
  cbn. intros H. apply andb_true_iff in H as [H H0]. apply andb_true_iff in H as [Ha Hb].
  apply andb_true_iff in H0 as [H0 H1]. apply Z.leb_le in H0, H1. by repeat split.
Qed.

Lemma largest_rowid_numbered (t : Table) :
  numbered (Some t) = true -> largest_rowid t = seq t.
Proof.
  intros H. apply numbered_parts in H as (_ & H & _).
  unfold largest_rowid. induction (map row_id (rows t)) as [|x l IH]; [reflexivity|].
  cbn in *. apply andb_true_iff in H as [Hx Hl]. apply Z.leb_le in Hx.
  rewrite (IH Hl). lia.
Qed.

Lemma numbered_inserted (t : Table) (s : string) (cell : sqlvalue) :
  numbered (Some t) = true ->
  largest_rowid t <> max_int64 ->
  numbered (Some (inserted t s cell)) = true.
Proof.
  intros H Hmax. pose proof (largest_rowid_numbered t H) as Hl.
  apply numbered_parts in H as (Ha & Hb & H0 & H1).
  unfold inserted. rewrite Hl in *. cbn. rewrite map_app. cbn.
  rewrite (ascending_snoc 0 (seq t) _ Ha Hb H0). cbn.
  rewrite forallb_app. cbn.
  apply andb_true_iff. split.
  - apply andb_true_iff. split; [|by rewrite Z.leb_refl].
    clear - Hb. induction (map row_id (rows t)) as [|x l IH]; [reflexivity|].
    cbn in *. apply andb_true_iff in Hb as [Hx Hb]. rewrite (IH Hb), andb_true_r.
    apply Z.leb_le in Hx. apply Z.leb_le. lia.
  - apply andb_true_iff. split; apply Z.leb_le; lia.
Qed.

Lemma numbered_deleted (t : Table) (p : row -> bool) :
  numbered (Some t) = true -> numbered (Some (mkTable (List.filter p (rows t)) (seq t))) = true.
Proof.
  intros H. apply numbered_parts in H as (Ha & Hb & H0 & H1).
  cbn. rewrite ascending_filter, forallb_filter_ids by assumption. cbn.
  apply andb_true_iff. split; apply Z.leb_le; lia.
Qed.

(** Every exit of an INSERT, with what an accepted one needed. *)
Lemma sql_insert_effect (n r : value) (d d' : Connection) (o : outcome Z) :
  sql_insert n r d = (o, d') ->
  d' = d \/ d' = begin d \/ d' = rollback d \/
  exists t s cell, visible d = Some t /\ largest_rowid t <> max_int64 /\
                   d' = accepted t s cell d.
Proof.
  destruct o as [k|e|].
  { intros H. apply sql_insert_return in H as (t & s & cell & Ht & _ & Hfree & _ & ->).
    right. right. right. by exists t, s, cell. }
  all: unfold sql_insert;
    destruct (visible d) as [t|]; [|intros H; inversion H; tauto];
    destruct (adapt n) as [sn|?|]; [|intros H; inversion H; tauto..];
    destruct (adapt r) as [sr|?|]; [|intros H; inversion H; tauto..];
    (destruct (largest_rowid t =? max_int64);
     [rewrite rollback_begin; intros H; inversion H; tauto|]);
    destruct (text_affinity sn) as [[s|]|?|], (real_affinity sr) as [[]|?|];
    try (intros H; inversion H; tauto);
    (destruct (existsb (has_name s) (rows t));
     [rewrite rollback_begin; intros H; inversion H; tauto|]);
    intros H; inversion H.
Qed.

Lemma well_numbered_begin (d : Connection) :
  well_numbered d = true -> well_numbered (begin d) = true.
Proof. unfold well_numbered. by rewrite committed_begin, visible_begin. Qed.

Lemma well_numbered_rollback (d : Connection) :
  well_numbered d = true -> well_numbered (rollback d) = true.
Proof.
  unfold well_numbered. rewrite visible_rollback. cbn [committed rollback].
  intros H. apply andb_true_iff in H as [H _]. by rewrite H.
Qed.

Lemma well_numbered_write_begin (d : Connection) (t : option Table) :
  well_numbered d = true -> numbered t = true -> well_numbered (write t (begin d)) = true.
Proof.
  unfold well_numbered. rewrite committed_write_begin, visible_write_begin.
  destruct d as [c [w|] l]; cbn; intros H Ht; apply andb_true_iff in H as [H1 H2];
    by rewrite ?H1, ?Ht.
Qed.

Lemma well_numbered_visible (d : Connection) (t : Table) :
  well_numbered d = true -> visible d = Some t -> numbered (Some t) = true.
Proof.
  unfold well_numbered. intros H Ht. apply andb_true_iff in H as [_ H]. by rewrite Ht in H.
Qed.

Lemma sql_insert_well_numbered (n r : value) (d d' : Connection) (o : outcome Z) :
  well_numbered d = true -> sql_insert n r d = (o, d') -> well_numbered d' = true.
Proof.
  intros Hc H. apply sql_insert_effect in H as [->|[->|[->|(t & s & cell & Ht & Hs & ->)]]].
  - exact Hc.
  - by apply well_numbered_begin.
  - by apply well_numbered_rollback.
  - unfold accepted, record_rowid, well_numbered. cbn [committed visible transaction].
    apply (well_numbered_write_begin _ (Some (inserted t s cell))); [exact Hc|].
    apply numbered_inserted; [|exact Hs]. by apply (well_numbered_visible d).
Qed.

Lemma sql_delete_by_id_well_numbered (i : value) (d : Connection) :
  well_numbered d = true -> well_numbered (snd (sql_delete_by_id i d)) = true.
Proof.
  intros Hc. unfold sql_delete_by_id.
  destruct (visible d) as [t|] eqn:Ht; [|exact Hc].
  destruct (adapt i) as [[| z | f | s]|?|]; cbn [snd]; try by apply well_numbered_begin.
  apply well_numbered_write_begin; [exact Hc|].
  apply numbered_deleted. by apply (well_numbered_visible d).
Qed.

Lemma sql_create_table_well_numbered (d : Connection) :
  well_numbered d = true -> well_numbered (snd (sql_create_table d)) = true.
Proof.
  intros Hc. unfold sql_create_table.
  destruct (visible d) as [t|] eqn:Ht; [exact Hc|].
  destruct d as [c [w|] l]; cbn in *; [|reflexivity].
  subst w. unfold well_numbered in *. cbn in *. by rewrite andb_true_r in *.
Qed.

Lemma reachable_well_numbered (st : Py) : reachable st -> well_numbered (db st) = true.
Proof.
  induction 1 as [|st args _ IH|st _ IH|st r _ IH|st _ IH|st n _ IH|st i _ IH].
  - reflexivity.
  - unfold VideoGameModel_new. by destruct (VideoGameModel_init args).
  - rewrite create_video_game_table_run. cbn [snd with_cursor db].
    by apply sql_create_table_well_numbered.
  - rewrite add_video_game_run.
    destruct (heap st !! r) as [g|]; [|exact IH].
    destruct (sql_insert (name g) (rating g) (db st)) as [o d] eqn:Hi.
    pose proof (sql_insert_well_numbered _ _ _ _ _ IH Hi) as Hd.
    by destruct o.
  - by rewrite get_all_video_games_db.
  - by rewrite get_video_game_by_name_db.
  - rewrite delete_video_game_by_id_run.
    pose proof (sql_delete_by_id_well_numbered i (db st) IH) as Hd.
    by destruct (sql_delete_by_id i (db st)) as [[u|e|] d].
Qed.

Lemma reachable_before_delete : reachable before_delete.
Proof.
  apply reach_add, reach_new, reach_add, reach_new, reach_create, reach_fresh.
Qed.

Lemma reachable_after_delete : reachable after_delete.
Proof. apply reach_delete, reachable_before_delete. Qed.

Lemma distinct_lookup (l : list string) (i j : nat) (x y : string) :
  distinct l = true -> l !! i = Some x -> l !! j = Some y -> i <> j -> x <> y.
Proof.
  revert i j. induction l as [|z l IH]; intros i j; [discriminate|].
  cbn [distinct]. intros H Hi Hj Hij.
  apply andb_true_iff in H as [Hz Hl]. apply negb_true_iff in Hz.
  assert (forall k w, l !! k = Some w -> z <> w) as Hhead.
  { intros k w Hk ->.
    assert (existsb (String.eqb w) l = true) as Habs; [|congruence].
    apply existsb_exists. exists w. split; [|apply String.eqb_refl].
    apply list_elem_of_In, list_elem_of_lookup. by exists k. }
  destruct i as [|i], j as [|j]; cbn in Hi, Hj.
  - lia.
  - injection Hi as <-. by apply (Hhead j).
  - injection Hj as <-. intros Heq. by apply (Hhead i x Hi).
  - apply (IH i j); try assumption. lia.
Qed.

(** X5.  In every state reached from a fresh connection by the constructor
    and the five functions (returning or raising), two different rows of the
    table never have the same name; this holds of the rows the connection
    sees and of the committed ones. *)
Theorem names_unique_in_reachable (st : Py) (t : Table) (i j : nat) (ri rj : row) :
  reachable st ->
  visible (db st) = Some t \/ committed (db st) = Some t ->
  rows t !! i = Some ri ->
  rows t !! j = Some rj ->
  i <> j ->
  row_name ri <> row_name rj.
Proof.
  intros Hr Ht Hi Hj Hij.
  pose proof (reachable_consistent st Hr) as Hc.
  unfold consistent in Hc. apply andb_true_iff in Hc as [Hc Hv].
  assert (distinct (map row_name (rows t)) = true) as Hd.
  { destruct Ht as [Ht|Ht]; [by rewrite Ht in Hv|by rewrite Ht in Hc]. }
  apply (distinct_lookup _ i j _ _ Hd); [| |exact Hij].
  - by rewrite lookup_map, Hi.
  - by rewrite lookup_map, Hj.
Qed.

Lemma names_unique_in_reachable_witness :
  row_name (mkRow 1 "Portal" (SReal (float_of_Z 95))) <>
  row_name (mkRow 2 "Celeste" (SReal (float_of_Z 92))).
Proof.
  apply (names_unique_in_reachable before_delete
           (mkTable [mkRow 1 "Portal" (SReal (float_of_Z 95));
                     mkRow 2 "Celeste" (SReal (float_of_Z 92))] 2) 0 1).
  - apply reach_add, reach_new, reach_add, reach_new, reach_create, reach_fresh.
  - left. reflexivity.
  - reflexivity.
  - reflexivity.
  - lia.
Defined.

(** X6.  In every reachable state the identifiers of the table are at least
    1, strictly increasing in table order (so no two rows share one), and
    none exceeds the AUTOINCREMENT counter, which itself fits in 64 bits. *)
Theorem rowids_increase_in_reachable (st : Py) (t : Table) :
  reachable st ->
  visible (db st) = Some t ->
  (forall i j ri rj,
     rows t !! i = Some ri -> rows t !! j = Some rj -> (i < j)%nat ->
     row_id ri < row_id rj) /\
  (forall r, In r (rows t) -> 1 <= row_id r <= seq t) /\
  seq t <= max_int64.
Proof.
  intros Hr Ht.
  pose proof (well_numbered_visible _ _ (reachable_well_numbered st Hr) Ht) as Hn.
  apply numbered_parts in Hn as (Ha & Hb & H0 & H1).
  split; [|split; [|exact H1]].
  - intros i j ri rj Hi Hj Hij.
    apply (ascending_lookup 0 (map row_id (rows t)) i j); try assumption.
    + by rewrite lookup_map, Hi.
    + by rewrite lookup_map, Hj.
  - intros r Hin.
    apply list_elem_of_In, list_elem_of_lookup in Hin as [k Hk].
    assert (map row_id (rows t) !! k = Some (row_id r)) as Hk'
      by (by rewrite lookup_map, Hk).
    pose proof (ascending_above 0 _ k _ Ha Hk') as Hpos.
    split; [lia|].
    rewrite forallb_forall in Hb. apply Z.leb_le, Hb.
    apply list_elem_of_In, list_elem_of_lookup. by exists k.
Qed.

Lemma rowids_increase_in_reachable_witness :
  (forall i j ri rj,
     [mkRow 2 "Celeste" (SReal (float_of_Z 92))] !! i = Some ri ->
     [mkRow 2 "Celeste" (SReal (float_of_Z 92))] !! j = Some rj -> (i < j)%nat ->
     row_id ri < row_id rj) /\
  (forall r, In r [mkRow 2 "Celeste" (SReal (float_of_Z 92))] -> 1 <= row_id r <= 2) /\
  2 <= max_int64.
Proof.
  apply (rowids_increase_in_reachable after_delete
           (mkTable [mkRow 2 "Celeste" (SReal (float_of_Z 92))] 2)).
  - apply reach_delete, reach_add, reach_new, reach_add, reach_new, reach_create,
      reach_fresh.
  - reflexivity.
Defined.

(** ** Deleting one row *)

Lemma filter_keeps_above (z : Z) (l : list row) :
  ascending z (map row_id l) = true ->
  List.filter (fun r => negb (has_id z r)) l = l.
Proof.
  induction l as [|x l IH]; [reflexivity|].
  cbn. intros H. apply andb_true_iff in H as [Hx Hl]. apply Z.ltb_lt in Hx.
  unfold has_id at 1. destruct (Z.eqb_spec (row_id x) z) as [|_]; [lia|]. cbn.
  rewrite IH; [reflexivity|]. apply (ascending_weaken (row_id x)); [lia|exact Hl].
Qed.

Lemma filter_drops_one (lo : Z) (l : list row) (r : row) :
  ascending lo (map row_id l) = true ->
  In r l ->
  (length (List.filter (fun x => negb (has_id (row_id r) x)) l) + 1 = length l)%nat.
Proof.
  revert lo. induction l as [|x l IH]; intros lo; [intros _ []|].
  cbn [map ascending]. intros H Hin.
  apply andb_true_iff in H as [Hx Hl].
  destruct Hin as [->|Hin].
  - cbn. unfold has_id at 1. rewrite Z.eqb_refl. cbn.
    rewrite (filter_keeps_above _ _ Hl). lia.
  - assert (row_id x < row_id r) as Hlt.
    { apply list_elem_of_In, list_elem_of_lookup in Hin as [k Hk].
      apply (ascending_above _ (map row_id l) k); [exact Hl|].
      by rewrite lookup_map, Hk. }
    cbn. unfold has_id at 1. destruct (Z.eqb_spec (row_id x) (row_id r)) as [|_]; [lia|].
    cbn. specialize (IH _ Hl Hin). lia.
Qed.

(** X7.  In a reachable state, deleting by the identifier of a row that is in
    the table returns and removes exactly that row: the table is one row
    shorter, the row is gone, and every other row is still there. *)
Theorem delete_removes_one_row (st : Py) (t : Table) (r : row) :
  reachable st ->
  visible (db st) = Some t ->
  In r (rows t) ->
  exists st' t',
    delete_video_game_by_id (VInt (row_id r)) st = (Return tt, st') /\
    visible (db st') = Some t' /\
    (length (rows t') + 1 = length (rows t))%nat /\
    ~ In r (rows t') /\
    (forall r', In r' (rows t) -> r' <> r -> In r' (rows t')).
Proof.
  intros Hr Ht Hin.
  pose proof (well_numbered_visible _ _ (reachable_well_numbered st Hr) Ht) as Hn.
  apply numbered_parts in Hn as (Ha & Hb & H0 & H1).
  assert (1 <= row_id r <= seq t) as Hid.
  { apply list_elem_of_In, list_elem_of_lookup in Hin as [k Hk].
    assert (map row_id (rows t) !! k = Some (row_id r)) as Hk'
      by (by rewrite lookup_map, Hk).
    pose proof (ascending_above 0 _ k _ Ha Hk'). split; [lia|].
    rewrite forallb_forall in Hb. apply Z.leb_le, Hb.
    apply list_elem_of_In, list_elem_of_lookup. by exists k. }
  assert (min_int64 <= row_id r <= max_int64) as Hrange
    by (unfold min_int64 in *; lia).
  rewrite delete_video_game_by_id_run, (sql_delete_by_id_int _ _ t Ht Hrange).
  eexists _, _. split; [reflexivity|].
  cbn [with_cursor db]. rewrite visible_write_begin.
  split; [reflexivity|]. cbn [rows].
  split; [by apply (filter_drops_one 0)|].
  split.
  - rewrite filter_In. unfold has_id. rewrite Z.eqb_refl. cbn. intros [_ ?]. discriminate.
  - intros r' Hin' Hne. apply filter_In. split; [exact Hin'|].
    unfold has_id. apply negb_true_iff, Z.eqb_neq. intros Heq.
    apply Hne.
    apply list_elem_of_In, list_elem_of_lookup in Hin as [i Hi].
    apply list_elem_of_In, list_elem_of_lookup in Hin' as [j Hj].
    assert (map row_id (rows t) !! i = Some (row_id r)) as Hi'
      by (by rewrite lookup_map, Hi).
    assert (map row_id (rows t) !! j = Some (row_id r')) as Hj'
      by (by rewrite lookup_map, Hj).
    destruct (Nat.lt_trichotomy i j) as [Hlt|[->|Hlt]].
    + pose proof (ascending_lookup 0 _ i j _ _ Ha Hi' Hj' Hlt). lia.
    + congruence.
    + pose proof (ascending_lookup 0 _ j i _ _ Ha Hj' Hi' Hlt). lia.
Qed.

Lemma delete_removes_one_row_witness :
  exists st' t',
    delete_video_game_by_id (VInt 1) before_delete = (Return tt, st') /\
    visible (db st') = Some t' /\
    (length (rows t') + 1 = 2)%nat /\
    ~ In (mkRow 1 "Portal" (SReal (float_of_Z 95))) (rows t') /\
    (forall r',
       In r' [mkRow 1 "Portal" (SReal (float_of_Z 95));
              mkRow 2 "Celeste" (SReal (float_of_Z 92))] ->
       r' <> mkRow 1 "Portal" (SReal (float_of_Z 95)) -> In r' (rows t')).
Proof.
  apply (delete_removes_one_row before_delete
           (mkTable [mkRow 1 "Portal" (SReal (float_of_Z 95));
                     mkRow 2 "Celeste" (SReal (float_of_Z 92))] 2)
           (mkRow 1 "Portal" (SReal (float_of_Z 95)))).
  - apply reach_add, reach_new, reach_add, reach_new, reach_create, reach_fresh.
  - reflexivity.
  - left. reflexivity.
Defined.

(** ** Inserts and what follows them *)

Lemma largest_rowid_above (t : Table) (k : Z) :
  largest_rowid t < k ->
  List.filter (fun r => negb (has_id k r)) (rows t) = rows t.
Proof.
  intros Hk. apply filter_all. 
  destruct (existsb _ _) eqn:E; [|reflexivity].
  apply existsb_exists in E as (r & Hin & Hr).
  apply largest_rowid_bound in Hin.
  rewrite negb_involutive in Hr. unfold has_id in Hr. apply Z.eqb_eq in Hr. lia.
Qed.

(** X8.  Adding a game and deleting it again by the identifier written back
    restores the rows of the table (only the counter has moved on), and a
    lookup of its name then fails with [TypeError].  Here the table exists
    with rowids left, the name is a text not yet in it and the rating a
    real other than NaN. *)
Theorem add_then_delete (st : Py) (video_game : nat) (s : string) (f : spec_float)
    (i : value) (t : Table) :
  well_numbered (db st) = true ->
  heap st !! video_game = Some (mkVideoGameModel (VStr s) (VFloat f) i) ->
  is_nan f = false ->
  visible (db st) = Some t ->
  existsb (has_name s) (rows t) = false ->
  largest_rowid t < max_int64 ->
  exists st1 st2 k,
    add_video_game video_game st = (Return tt, st1) /\
    heap st1 !! video_game = Some (mkVideoGameModel (VStr s) (VFloat f) (VInt k)) /\
    delete_video_game_by_id (VInt k) st1 = (Return tt, st2) /\
    visible (db st2) = Some (mkTable (rows t) k) /\
    heap st2 = heap st1 /\
    fst (get_video_game_by_name (VStr s) st2) = Raise TypeError.
Proof.
  intros Hw Hg Hf Ht Hs Hk.
  pose proof (well_numbered_visible _ _ Hw Ht) as Hn.
  pose proof (largest_rowid_numbered t Hn) as Hl.
  apply numbered_parts in Hn as (_ & _ & H0 & H1).
  rewrite add_video_game_run, Hg. cbn [name rating].
  rewrite (sql_insert_typed s f (db st) t Ht Hf), Hs.
  destruct (largest_rowid t =? max_int64) eqn:E; [apply Z.eqb_eq in E; lia|].
  set (k := largest_rowid t + 1).
  eexists _, _, k. split; [reflexivity|]. cbn [heap].
  split; [apply list_lookup_insert_eq; by apply lookup_lt_Some in Hg|].
  assert (min_int64 <= k <= max_int64) as Hrange by (unfold min_int64 in *; lia).
  rewrite delete_video_game_by_id_run. cbn [db].
  rewrite (sql_delete_by_id_int k _ (inserted t s (SReal (stored_real f))));
    [|apply visible_accepted|exact Hrange].
  split; [reflexivity|]. cbn [with_cursor db heap].
  assert (List.filter (fun r => negb (has_id k r))
            (rows (inserted t s (SReal (stored_real f)))) = rows t) as Hrows.
  { unfold inserted. cbn [rows]. fold k. rewrite List.filter_app, largest_rowid_above by lia.
    cbn. unfold has_id. cbn. rewrite Z.eqb_refl. cbn. apply app_nil_r. }
  rewrite Hrows, visible_write_begin.
  split; [reflexivity|]. split; [reflexivity|].
  rewrite get_video_game_by_name_run. unfold with_cursor at 1. cbn [db].
  rewrite sql_select_by_name_text, visible_write_begin.
  unfold matching. rewrite visible_write_begin. cbn [rows]. by rewrite (filter_none _ _ Hs).
Qed.

Lemma add_then_delete_witness :
  exists st1 st2 k,
    add_video_game 0 unsaved_game = (Return tt, st1) /\
    heap st1 !! 0%nat = Some (mkVideoGameModel (VStr "Hades") (VFloat (float_of_Z 93)) (VInt k)) /\
    delete_video_game_by_id (VInt k) st1 = (Return tt, st2) /\
    visible (db st2) = Some (mkTable [] k) /\
    heap st2 = heap st1 /\
    fst (get_video_game_by_name (VStr "Hades") st2) = Raise TypeError.
Proof.
  apply (add_then_delete unsaved_game 0 "Hades" (float_of_Z 93) (VInt 41) (mkTable [] 0));
    reflexivity.
Defined.

Lemma add_then_get_stored (st : Py) (video_game : nat) (s : string) (r i : value)
    (sr cell : sqlvalue) (t : Table) :
  heap st !! video_game = Some (mkVideoGameModel (VStr s) r i) ->
  adapt r = Return sr ->
  real_affinity sr = Return cell ->
  cell <> SNull ->
  visible (db st) = Some t ->
  existsb (has_name s) (rows t) = false ->
  largest_rowid t < max_int64 ->
  exists st1 st2 found k,
    add_video_game video_game st = (Return tt, st1) /\
    get_video_game_by_name (VStr s) st1 = (Return found, st2) /\
    heap st1 !! video_game = Some (mkVideoGameModel (VStr s) r (VInt k)) /\
    heap st2 !! video_game = Some (mkVideoGameModel (VStr s) r (VInt k)) /\
    heap st2 !! found = Some (mkVideoGameModel (VStr s) (to_python cell) (VInt k)).
Proof.
  intros Hg Ha Hr Hc Ht Hs Hk.
  destruct (add_then_get_run st video_game s r i sr cell t Hg Ha Hr Hc Ht Hs Hk)
    as (st1 & st2 & k & H).
  by exists st1, st2, (length (heap st)), k.
Qed.

Lemma all_digits_has_digit (d : string) :
  d <> EmptyString -> all_digits d = true -> has_digit d = true.
Proof.
  destruct d as [|a d]; [congruence|]. cbn. intros _ H.
  apply andb_true_iff in H as [-> _]. reflexivity.
Qed.

(** X9.  A rating given as an integer, or as a text of one to fifteen
    digits, is accepted and stored as a real: after [add_video_game], the
    object read back by name holds the float of that number, while the
    caller's object still holds the value it was given (with the new
    identifier).  As before the table exists with rowids left and the name is
    a text not yet in it. *)
Theorem numeric_rating_becomes_float (st : Py) (video_game : nat) (s : string)
    (r i : value) (f : spec_float) (t : Table) :
  heap st !! video_game = Some (mkVideoGameModel (VStr s) r i) ->
  (exists z, r = VInt z /\ min_int64 <= z <= max_int64 /\ f = float_of_Z z) \/
  (exists d, r = VStr d /\ d <> EmptyString /\ all_digits d = true /\
             (String.length d <= 15)%nat /\ f = float_of_Z (digits_value 0 d)) ->
  visible (db st) = Some t ->
  existsb (has_name s) (rows t) = false ->
  largest_rowid t < max_int64 ->
  exists st1 st2 found k,
    add_video_game video_game st = (Return tt, st1) /\
    get_video_game_by_name (VStr s) st1 = (Return found, st2) /\
    heap st1 !! video_game = Some (mkVideoGameModel (VStr s) r (VInt k)) /\
    heap st2 !! video_game = Some (mkVideoGameModel (VStr s) r (VInt k)) /\
    heap st2 !! found = Some (mkVideoGameModel (VStr s) (VFloat f) (VInt k)).
Proof.
  intros Hg Hr Ht Hs Hk.
  destruct Hr as [(z & -> & Hz & ->)|(d & -> & Hne & Hd & Hlen & ->)].
  - apply (add_then_get_stored st video_game s (VInt z) i
             (SInteger z) (SReal (float_of_Z z)) t);
      try assumption; try discriminate; try reflexivity.
    cbn. destruct (Z.leb_spec min_int64 z), (Z.leb_spec z max_int64); try lia.
    reflexivity.
  - apply (add_then_get_stored st video_game s (VStr d) i
             (SText d) (SReal (float_of_Z (digits_value 0 d))) t);
      try assumption; try discriminate; try reflexivity.
    cbn. rewrite (all_digits_has_digit d Hne Hd), Hd. cbn.
    by destruct (Nat.leb_spec (String.length d) 15); [|lia].
Qed.

Lemma numeric_rating_becomes_float_witness :
  let st := snd ((create_video_game_table ;;;
                  VideoGameModel_new [VStr "Satisfactory"; VStr "90"]) fresh) in
  exists st1 st2 found k,
    add_video_game 0 st = (Return tt, st1) /\
    get_video_game_by_name (VStr "Satisfactory") st1 = (Return found, st2) /\
    heap st1 !! 0%nat = Some (mkVideoGameModel (VStr "Satisfactory") (VStr "90") (VInt k)) /\
    heap st2 !! 0%nat = Some (mkVideoGameModel (VStr "Satisfactory") (VStr "90") (VInt k)) /\
    heap st2 !! found
      = Some (mkVideoGameModel (VStr "Satisfactory") (VFloat (float_of_Z 90)) (VInt k)).
Proof.
  apply (numeric_rating_becomes_float
           (snd ((create_video_game_table ;;;
                  VideoGameModel_new [VStr "Satisfactory"; VStr "90"]) fresh))
           0 "Satisfactory" (VStr "90") VNone (float_of_Z 90) (mkTable [] 0)).
  - reflexivity.
  - right. exists "90"%string. repeat split; [discriminate|cbn; lia].
  - reflexivity.
  - reflexivity.
  - reflexivity.
Defined.

(** X10.  After an accepted insert the listing shows the new game last: on
    the state [add_video_game] leaves, [get_all_video_games] returns one
    object per earlier row and then one more, a different object from the
    caller's, which holds the name and the identifier now in the caller's
    object and the rating as the REAL column gives it back (the real that
    was inserted, except that a negative zero is listed as 0.0). *)
Theorem add_then_list (st : Py) (video_game : nat) (s : string) (f : spec_float)
    (i : value) (t : Table) :
  heap st !! video_game = Some (mkVideoGameModel (VStr s) (VFloat f) i) ->
  is_nan f = false ->
  visible (db st) = Some t ->
  existsb (has_name s) (rows t) = false ->
  largest_rowid t < max_int64 ->
  exists st1 st2 video_games last k,
    add_video_game video_game st = (Return tt, st1) /\
    get_all_video_games st1 = (Return video_games, st2) /\
    length video_games = S (length (rows t)) /\
    video_games !! length (rows t) = Some last /\
    heap st2 !! last = Some (mkVideoGameModel (VStr s) (VFloat (stored_real f)) (VInt k)) /\
    (f <> S754_zero true -> stored_real f = f) /\
    heap st2 !! video_game = Some (mkVideoGameModel (VStr s) (VFloat f) (VInt k)) /\
    last <> video_game.
Proof.
  intros Hg Hf Ht Hs Hk.
  rewrite add_video_game_run, Hg. cbn [name rating].
  rewrite (sql_insert_typed s f (db st) t Ht Hf), Hs.
  destruct (largest_rowid t =? max_int64) eqn:E; [apply Z.eqb_eq in E; lia|].
  set (k := largest_rowid t + 1).
  assert (video_game < length (heap st))%nat as Hlt by (by apply lookup_lt_Some in Hg).
  eexists _, _, _, (length (heap st) + length (rows t))%nat, k.
  split; [reflexivity|].
  rewrite get_all_video_games_run. cbn [db heap cursors].
  rewrite visible_accepted. split; [reflexivity|].
  unfold inserted, fresh_refs. cbn [rows heap].
  rewrite length_insert, length_app, length_seq. cbn [length].
  split; [lia|].
  split; [apply lookup_seq_lt; lia|].
  split; [|split; [by destruct f as [[]| | |]|split; [|lia]]].
  - rewrite lookup_app_r by (rewrite length_insert; lia).
    rewrite length_insert, map_app.
    replace (length (heap st) + length (rows t) - length (heap st))%nat
      with (length (map of_row (rows t))) by (rewrite length_map; lia).
    apply lookup_new.
  - apply lookup_app_l_Some. by apply list_lookup_insert_eq.
Qed.

Lemma add_then_list_witness :
  exists st1 st2 video_games last k,
    add_video_game 0 unsaved_game = (Return tt, st1) /\
    get_all_video_games st1 = (Return video_games, st2) /\
    length video_games = 1%nat /\
    video_games !! 0%nat = Some last /\
    heap st2 !! last = Some (mkVideoGameModel (VStr "Hades") (VFloat (float_of_Z 93)) (VInt k)) /\
    (float_of_Z 93 <> S754_zero true -> stored_real (float_of_Z 93) = float_of_Z 93) /\
    heap st2 !! 0%nat = Some (mkVideoGameModel (VStr "Hades") (VFloat (float_of_Z 93)) (VInt k)) /\
    last <> 0%nat.
Proof.
  apply (add_then_list unsaved_game 0 "Hades" (float_of_Z 93) (VInt 41) (mkTable [] 0));
    reflexivity.
Defined.

(** ** Missing fields *)



(** ** The whole of [main] *)

Lemma bind_return {A B} (m : M A) (k : A -> M B) (st st' : Py) (a : A) :
  m st = (Return a, st') -> bind m k st = k a st'.
Proof. intros H. unfold bind. by rewrite H. Qed.

Lemma bind_raise {A B} (m : M A) (k : A -> M B) (st st' : Py) (e : exn) :
  m st = (Raise e, st') -> bind m k st = (Raise e, st').
Proof. intros H. unfold bind. by rewrite H. Qed.

Lemma show_run (video_game : nat) (g : VideoGameModel) (st : Py) :
  heap st !! video_game = Some g -> show video_game st = (Return g, st).
Proof. intros H. unfold show. by rewrite H. Qed.

Lemma show_all_run (l h : list VideoGameModel) (st : Py) :
  heap st = h ++ l ->
  show_all (fresh_refs (length h) (length l)) st = (Return l, st).
Proof.
  revert h. induction l as [|g l IH]; intros h Hh; [reflexivity|].
  cbn [length fresh_refs List.seq show_all].
  rewrite (bind_return _ _ st st g).
  - specialize (IH (h ++ [g])). rewrite length_app in IH. cbn [length] in IH.
    replace (length h + 1)%nat with (S (length h)) in IH by lia.
    unfold fresh_refs in IH.
    rewrite (bind_return _ _ st st l); [reflexivity|].
    apply IH. by rewrite <- app_assoc.
  - apply show_run. rewrite Hh. apply list_lookup_middle. reflexivity.
Qed.

Lemma visible_created (d : Connection) :
  visible (snd (sql_create_table d)) = Some (table_or_empty d).
Proof.
  unfold sql_create_table, table_or_empty.
  destruct (visible d) as [t|] eqn:Hv; [exact Hv|].
  destruct d as [c [w|] l]; reflexivity.
Qed.

Lemma well_numbered_created (d : Connection) :
  well_numbered d = true -> numbered (Some (table_or_empty d)) = true.
Proof.
  intros Hw. apply (well_numbered_visible (snd (sql_create_table d))).
  - by apply sql_create_table_well_numbered.
  - apply visible_created.
Qed.

(** X12.  On a connection in a reachable condition where no row is named
    "Satisfactory" and rowids are left (a fresh connection included), [main]
    returns.  It prints its object without identifier, then with the new
    rowid [k]; the listing of the earlier rows followed by the game read
    back with rating 90.0; that game alone; and after the delete the listing
    of the earlier rows.  It leaves the rows of the table as it found them
    (created empty if there was none), existing objects untouched, and every
    cursor it made closed. *)
Theorem main_runs (st : Py) :
  let t0 := table_or_empty (db st) in
  let k := largest_rowid t0 + 1 in
  let sat := "Satisfactory"%string in
  let stored := mkVideoGameModel (VStr sat) (VFloat (float_of_Z 90)) (VInt k) in
  well_numbered (db st) = true ->
  existsb (has_name sat) (rows t0) = false ->
  largest_rowid t0 < max_int64 ->
  exists st',
    main st =
      (Return [[mkVideoGameModel (VStr sat) (VStr "90") VNone];
               [mkVideoGameModel (VStr sat) (VStr "90") (VInt k)];
               map of_row (rows t0) ++ [stored];
               [stored];
               map of_row (rows t0)], st') /\
    visible (db st') = Some (mkTable (rows t0) k) /\
    (exists made, heap st' = heap st ++ made) /\
    (exists made, cursors st' = cursors st ++ made /\ forallb closed made = true).
Proof.
  intros t0 k sat stored Hw Hs Hk.
  pose proof (well_numbered_created _ Hw) as Hn. fold t0 in Hn.
  pose proof (largest_rowid_numbered t0 Hn) as Hl.
  apply numbered_parts in Hn as (_ & _ & H0 & _).
  set (g0 := mkVideoGameModel (VStr sat) (VStr "90") VNone).
  set (g1 := mkVideoGameModel (VStr sat) (VStr "90") (VInt k)).
  set (new := mkRow k sat (SReal (float_of_Z 90))).
  set (d1 := snd (sql_create_table (db st))).
  assert (visible d1 = Some t0) as Hd1 by apply visible_created.
  set (st1 := with_cursor (done_with d1) d1 st).
  set (st2 := mkPy d1 (cursors st1) (heap st ++ [g0])).
  set (d3 := accepted t0 sat (SReal (float_of_Z 90)) d1).
  assert (visible d3 = Some (mkTable (rows t0 ++ [new]) k)) as Hd3
    by apply visible_accepted.
  set (st3 := mkPy d3 (cursors st2 ++ [mkCursor true (VInt k) []]) (heap st ++ [g1])).
  set (all3 := map of_row (rows t0) ++ [stored]).
  set (st4 := mkPy d3 (cursors st3 ++ [done_with d3]) (heap st3 ++ all3)).
  set (st5 := mkPy d3 (cursors st4 ++ [done_with d3]) (heap st4 ++ [stored])).
  set (d6 := write (Some (mkTable (rows t0) k)) (begin d3)).
  assert (visible d6 = Some (mkTable (rows t0) k)) as Hd6
    by apply visible_write_begin.
  set (st6 := mkPy d6 (cursors st5 ++ [done_with d6]) (heap st5)).
  set (st7 := mkPy d6 (cursors st6 ++ [done_with d6]) (heap st6 ++ map of_row (rows t0))).
  assert (create_video_game_table st = (Return tt, st1)) as H1
    by apply create_video_game_table_run.
  assert (VideoGameModel_new [VStr sat; VStr "90"] st1 = (Return (length (heap st)), st2))
    as H2 by reflexivity.
  assert (show (length (heap st)) st2 = (Return g0, st2)) as H3
    by (apply show_run, lookup_new).
  assert (add_video_game (length (heap st)) st2 = (Return tt, st3)) as H4.
  { rewrite add_video_game_run. unfold st2 at 1 2. cbn [heap db]. rewrite lookup_new.
    unfold g0 at 1 2. cbn [name rating].
    rewrite (sql_insert_stored sat (VStr "90") (SText "90") (SReal (float_of_Z 90)) d1 t0);
      try done.
    fold t0 in Hs. rewrite Hs.
    destruct (largest_rowid t0 =? max_int64) eqn:E; [apply Z.eqb_eq in E; lia|].
    unfold st3, st2. cbn [heap cursors]. by rewrite insert_new. }
  assert (show (length (heap st)) st3 = (Return g1, st3)) as H5
    by (apply show_run, lookup_new).
  assert (get_all_video_games st3
          = (Return (fresh_refs (length (heap st3)) (length all3)), st4)) as H6.
  { rewrite get_all_video_games_run. unfold st3 at 1. cbn [db]. rewrite Hd3. cbn [rows].
    unfold all3. rewrite map_app. cbn [map]. by rewrite !length_app, !length_map. }
  assert (show_all (fresh_refs (length (heap st3)) (length all3)) st4 = (Return all3, st4))
    as H7 by (by apply show_all_run).
  assert (get_video_game_by_name (VStr sat) st4 = (Return (length (heap st4)), st5)) as H8.
  { rewrite get_video_game_by_name_run, sql_select_by_name_text. cbn [db st4].
    rewrite Hd3. unfold matching. rewrite Hd3. cbn [rows].
    fold t0 in Hs. rewrite List.filter_app, (filter_none _ _ Hs). reflexivity. }
  assert (show (length (heap st4)) st5 = (Return stored, st5)) as H9
    by (apply show_run, lookup_new).
  assert (getattr id_getter (length (heap st4)) st5 = (Return (VInt k), st5)) as H10.
  { unfold getattr. unfold st5 at 1. cbn [heap]. by rewrite lookup_new. }
  assert (delete_video_game_by_id (VInt k) st5 = (Return tt, st6)) as H11.
  { rewrite delete_video_game_by_id_run. unfold st5 at 1. cbn [db].
    rewrite (sql_delete_by_id_int k d3 _ Hd3); [|unfold min_int64 in *; lia].
    cbn [rows seq]. rewrite List.filter_app, largest_rowid_above by lia.
    cbn. unfold has_id. cbn. rewrite Z.eqb_refl. cbn. by rewrite app_nil_r. }
  assert (get_all_video_games st6
          = (Return (fresh_refs (length (heap st6)) (length (map of_row (rows t0)))), st7))
    as H12.
  { rewrite get_all_video_games_run. unfold st6 at 1. cbn [db]. rewrite Hd6. cbn [rows].
    by rewrite length_map. }
  assert (show_all (fresh_refs (length (heap st6)) (length (map of_row (rows t0)))) st7
          = (Return (map of_row (rows t0)), st7)) as H13 by (by apply show_all_run).
  exists st7. split.
  - unfold main.
    rewrite (bind_return _ _ _ _ _ H1), (bind_return _ _ _ _ _ H2),
      (bind_return _ _ _ _ _ H3), (bind_return _ _ _ _ _ H4),
      (bind_return _ _ _ _ _ H5), (bind_return _ _ _ _ _ H6),
      (bind_return _ _ _ _ _ H7), (bind_return _ _ _ _ _ H8),
      (bind_return _ _ _ _ _ H9), (bind_return _ _ _ _ _ H10),
      (bind_return _ _ _ _ _ H11), (bind_return _ _ _ _ _ H12),
      (bind_return _ _ _ _ _ H13).
    reflexivity.
  - split; [exact Hd6|]. split.
    + unfold st7, st6, st5, st4, st3. cbn [heap]. rewrite <- !app_assoc. by eexists.
    + unfold st7, st6, st5, st4, st3, st2, st1, with_cursor. cbn [cursors].
      rewrite <- !app_assoc. eexists. split; reflexivity.
Qed.

Lemma main_runs_witness :
  exists st',
    main after_delete =
      (Return [[mkVideoGameModel (VStr "Satisfactory") (VStr "90") VNone];
               [mkVideoGameModel (VStr "Satisfactory") (VStr "90") (VInt 3)];
               [mkVideoGameModel (VStr "Celeste") (VFloat (float_of_Z 92)) (VInt 2);
                mkVideoGameModel (VStr "Satisfactory") (VFloat (float_of_Z 90)) (VInt 3)];
               [mkVideoGameModel (VStr "Satisfactory") (VFloat (float_of_Z 90)) (VInt 3)];
               [mkVideoGameModel (VStr "Celeste") (VFloat (float_of_Z 92)) (VInt 2)]],
       st') /\
    visible (db st') = Some (mkTable [mkRow 2 "Celeste" (SReal (float_of_Z 92))] 3) /\
    (exists made, heap st' = heap after_delete ++ made) /\
    (exists made, cursors st' = cursors after_delete ++ made /\ forallb closed made = true).
Proof.
  apply (main_runs after_delete); reflexivity.
Defined.

(** X13.  When the table already holds a row named "Satisfactory" and still
    has a rowid left below the largest 64-bit integer, [main] stops at its
    insert with [IntegrityError]: nothing is printed after the first line, the
    connection is rolled back to its committed state, and the only object made
    is the one [main] built, still without identifier. *)
Theorem main_rejects_existing_name (st : Py) (t : Table) :
  visible (db st) = Some t ->
  largest_rowid t < max_int64 ->
  existsb (has_name "Satisfactory") (rows t) = true ->
  exists st',
    main st = (Raise IntegrityError, st') /\
    db st' = rollback (db st) /\
    heap st' = heap st ++ [mkVideoGameModel (VStr "Satisfactory") (VStr "90") VNone].
Proof.
  intros Ht Hfree Hs.
  set (g0 := mkVideoGameModel (VStr "Satisfactory") (VStr "90") VNone).
  set (st1 := with_cursor (done_with (db st)) (db st) st).
  set (st2 := mkPy (db st) (cursors st1) (heap st ++ [g0])).
  assert (create_video_game_table st = (Return tt, st1)) as H1.
  { rewrite create_video_game_table_run. by rewrite (sql_create_table_idle _ t Ht). }
  assert (VideoGameModel_new [VStr "Satisfactory"; VStr "90"] st1
          = (Return (length (heap st)), st2)) as H2 by reflexivity.
  assert (show (length (heap st)) st2 = (Return g0, st2)) as H3
    by (apply show_run, lookup_new).
  assert (add_video_game (length (heap st)) st2
          = (Raise IntegrityError, with_cursor opened (rollback (db st)) st2)) as H4.
  { rewrite add_video_game_run. unfold st2 at 1 2. cbn [heap db]. rewrite lookup_new.
    unfold g0 at 1 2. cbn [name rating].
    rewrite (sql_insert_stored "Satisfactory" (VStr "90") (SText "90")
               (SReal (float_of_Z 90)) (db st) t); try done.
    destruct (Z.eqb_spec (largest_rowid t) max_int64) as [E|_]; [lia|].
    by rewrite Hs. }
  exists (with_cursor opened (rollback (db st)) st2). split; [|split; reflexivity].
  unfold main.
  rewrite (bind_return _ _ _ _ _ H1), (bind_return _ _ _ _ _ H2),
    (bind_return _ _ _ _ _ H3).
  by apply bind_raise.
Qed.

Lemma main_rejects_existing_name_witness :
  exists st',
    main one_game = (Raise IntegrityError, st') /\
    db st' = rollback (db one_game) /\
    heap st' = heap one_game ++ [mkVideoGameModel (VStr "Satisfactory") (VStr "90") VNone].
Proof.
  apply (main_rejects_existing_name one_game
           (mkTable [mkRow 1 "Satisfactory" (SReal (float_of_Z 90))] 1)); reflexivity.
Defined.

(** ** What is committed *)

Lemma sql_insert_over_table (n r : value) (d d' : Connection) (o : outcome Z) :
  sql_insert n r d = (o, d') ->
  d' = d \/
  exists t, visible d = Some t /\
    (d' = begin d \/ d' = rollback d \/
     exists t' k, d' = record_rowid k (write (Some t') (begin d))).
Proof.
  unfold sql_insert.
  destruct (visible d) as [t|]; [|intros H; inversion H; tauto].
  intros H. right. exists t. split; [reflexivity|]. revert H.
  destruct (adapt n) as [sn|?|]; [|intros H; inversion H; tauto..].
  destruct (adapt r) as [sr|?|]; [|intros H; inversion H; tauto..].
  destruct (largest_rowid t =? max_int64);
    [rewrite rollback_begin; intros H; inversion H; tauto|].
  destruct (text_affinity sn) as [[s|]|?|], (real_affinity sr) as [[]|?|];
    try (intros H; inversion H; tauto);
    (destruct (existsb (has_name s) (rows t));
     [rewrite rollback_begin; intros H; inversion H; tauto|]);
    intros H; inversion H; right; right; by eexists _, _.
Qed.

Lemma only_table_committed_begin (d : Connection) (t : Table) :
  only_table_committed d = true -> visible d = Some t ->
  only_table_committed (begin d) = true.
Proof.
  destruct d as [[[[|? ?] [| |]]|] [[w|]|] l]; cbn; intros H Hv; try done.
Qed.

Lemma only_table_committed_rollback (d : Connection) :
  only_table_committed d = true -> only_table_committed (rollback d) = true.
Proof.
  destruct d as [[[[|? ?] [| |]]|] [[w|]|] l]; cbn; intros H; try done.
Qed.

Lemma only_table_committed_write (d : Connection) (t t' : Table) :
  only_table_committed d = true -> visible d = Some t ->
  only_table_committed (write (Some t') (begin d)) = true.
Proof.
  destruct d as [[[[|? ?] [| |]]|] [[w|]|] l]; cbn; intros H Hv; try done.
Qed.

Lemma only_table_committed_record_rowid (k : Z) (d : Connection) :
  only_table_committed (record_rowid k d) = only_table_committed d.
Proof.
  reflexivity.
Qed.

Lemma reachable_only_table_committed (st : Py) :
  reachable st -> only_table_committed (db st) = true.
Proof.
  induction 1 as [|st args _ IH|st _ IH|st r _ IH|st _ IH|st n _ IH|st i _ IH].
  - reflexivity.
  - unfold VideoGameModel_new. by destruct (VideoGameModel_init args).
  - rewrite create_video_game_table_run. cbn [snd with_cursor db].
    unfold sql_create_table. destruct (visible (db st)) as [t|] eqn:Hv; [exact IH|].
    by destruct (db st) as [[[[|? ?] [| |]]|] [[w|]|] l].
  - rewrite add_video_game_run.
    destruct (heap st !! r) as [g|]; [|exact IH].
    destruct (sql_insert (name g) (rating g) (db st)) as [o d] eqn:Hi.
    assert (only_table_committed d = true) as Hd.
    { apply sql_insert_over_table in Hi as [->|(t & Ht & [->|[->|(t' & k & ->)]])].
      - exact IH.
      - by apply (only_table_committed_begin _ t).
      - by apply only_table_committed_rollback.
      - rewrite only_table_committed_record_rowid.
        by apply (only_table_committed_write _ t). }
    by destruct o.
  - by rewrite get_all_video_games_db.
  - by rewrite get_video_game_by_name_db.
  - rewrite delete_video_game_by_id_run.
    assert (only_table_committed (snd (sql_delete_by_id i (db st))) = true) as Hd.
    { unfold sql_delete_by_id. destruct (visible (db st)) as [t|] eqn:Ht; [|exact IH].
      destruct (adapt i) as [[| z | f | s]|?|]; cbn [snd];
        try by apply (only_table_committed_begin _ t).
      by apply (only_table_committed_write _ t). }
    by destruct (sql_delete_by_id i (db st)) as [[u|e|] d].
Qed.

(** X14.  None of the functions commits: in every reachable state the
    committed database holds at most the empty table, so every row the
    connection sees lives in an open transaction. *)
Theorem rows_are_never_committed (st : Py) (t : Table) :
  reachable st ->
  committed (db st) = Some t ->
  t = mkTable [] 0 /\
  (forall t', visible (db st) = Some t' -> rows t' <> [] -> in_transaction (db st) = true).
Proof.
  intros Hr Hc. pose proof (reachable_only_table_committed st Hr) as H.
  unfold only_table_committed in H. rewrite Hc in H.
  destruct t as [[|? ?] [| |]]; try done.
  split; [reflexivity|]. intros t' Hv Hne.
  unfold visible, in_transaction in *. destruct (transaction (db st)); [reflexivity|].
  rewrite Hc in Hv. injection Hv as <-. by destruct Hne.
Qed.

Lemma rows_are_never_committed_witness :
  mkTable [] 0 = mkTable [] 0 /\
  (forall t', visible (db before_delete) = Some t' -> rows t' <> [] ->
              in_transaction (db before_delete) = true).
Proof.
  apply (rows_are_never_committed before_delete (mkTable [] 0)).
  - apply reach_add, reach_new, reach_add, reach_new, reach_create, reach_fresh.
  - reflexivity.
Defined.

(** X15.  Hence, in a reachable state whose table still has a rowid left,
    an insert under a name that is already in the table, with a rating the
    column accepts, not only fails with [IntegrityError]: it leaves the table
    empty and its counter back at zero, every row added before being rolled
    back with the transaction. *)
Theorem duplicate_insert_empties_table (st : Py) (video_game : nat) (g : VideoGameModel)
    (s : string) (t : Table) :
  reachable st ->
  heap st !! video_game = Some g ->
  name g = VStr s ->
  accepts_rating (rating g) = true ->
  visible (db st) = Some t ->
  largest_rowid t < max_int64 ->
  existsb (has_name s) (rows t) = true ->
  exists st',
    add_video_game video_game st = (Raise IntegrityError, st') /\
    visible (db st') = Some (mkTable [] 0) /\
    in_transaction (db st') = false /\
    fst (get_all_video_games st') = Return [].
Proof.
  intros Hr Hg Hn Hrt Ht Hfree Hs.
  rewrite (duplicate_insert_run st video_game g s t Hg Hn Hrt Ht Hfree Hs).
  eexists. split; [reflexivity|]. cbn [with_cursor db].
  assert (committed (db st) = Some (mkTable [] 0)) as Hc.
  { pose proof (reachable_only_table_committed st Hr) as H.
    unfold only_table_committed in H.
    destruct (committed (db st)) as [[[|? ?] [| |]]|] eqn:Hc; try done.
    unfold visible in Ht. destruct (transaction (db st)) as [[w|]|]; try done.
    by rewrite Hc in Ht. }
  rewrite visible_rollback.
  split; [exact Hc|]. split; [reflexivity|].
  rewrite get_all_video_games_run. cbn [with_cursor db]. rewrite visible_rollback, Hc.
  reflexivity.
Qed.

Lemma duplicate_insert_empties_table_witness :
  let st := snd (VideoGameModel_new [VStr "Celeste"; VFloat (float_of_Z 60)] before_delete) in
  exists st',
    add_video_game 2 st = (Raise IntegrityError, st') /\
    visible (db st') = Some (mkTable [] 0) /\
    in_transaction (db st') = false /\
    fst (get_all_video_games st') = Return [].
Proof.
  apply (duplicate_insert_empties_table
           (snd (VideoGameModel_new [VStr "Celeste"; VFloat (float_of_Z 60)] before_delete))
           2 (mkVideoGameModel (VStr "Celeste") (VFloat (float_of_Z 60)) VNone)
           "Celeste"
           (mkTable [mkRow 1 "Portal" (SReal (float_of_Z 95));
                     mkRow 2 "Celeste" (SReal (float_of_Z 92))] 2));
    try reflexivity.
  apply reach_new, reach_add, reach_new, reach_add, reach_new, reach_create, reach_fresh.
Defined.
